(** * vscode-ext-dl: platform-variant resolution and download orchestration

    A shallow embedding of [src/download.js], of the extension loop of
    [src/index.js] and of the table of [src/platforms.js], followed by the
    properties of the design document that concern them.

    The browser (Playwright), the progress bars (cli-progress) and the
    JavaScript built-ins are collaborators of the program: they are an
    interface here ([Builtins], [Playwright]) and every theorem holds for
    any implementation of it.  What the program itself does to them is
    recorded, call by call, in a trace. *)

From Stdlib Require Import String Ascii List Bool Arith NArith Lia Sorted.
Import ListNotations.
Open Scope string_scope.

(* ================================================================== *)
(** * JavaScript values *)

(** What a promise is rejected with (what an [await] throws). *)
Inductive JsError : Type :=
  | TimeoutError (msg : string)
  | PlaywrightError (msg : string)
  | AssertionError
  | TypeError (msg : string).

(** A settled promise. *)
Inductive result (A : Type) : Type :=
  | Fulfilled (a : A)
  | Rejected (e : JsError).
Arguments Fulfilled {A} a.
Arguments Rejected {A} e.

(** [page.locator(sel)] and [locator.nth(i)]. *)
Inductive Locator : Type :=
  | Loc (sel : string)
  | Nth (l : Locator) (i : nat).

(** Playwright's [Download]: a handle, and the name the server suggests. *)
Record Download : Type := mkDownload {
  dl_handle : nat;
  suggestedFilename : string
}.

(** cli-progress' [SingleBar], as the handle [MultiBar.create] gives out. *)
Definition SingleBar : Type := nat.

(** [String.prototype.includes]: [sub] occurs in [s] at some position. *)
Fixpoint includes (s sub : string) : bool :=
  String.prefix sub s ||
  match s with
  | EmptyString => false
  | String _ s' => includes s' sub
  end.

(** [Array.prototype.includes] on an array of strings. *)
Definition array_includes (l : list string) (x : string) : bool :=
  existsb (String.eqb x) l.

(** [Promise.all] of two promises, once the two have settled: fulfilled
    with both values when both are fulfilled, rejected otherwise, with the
    reason of the promise that was rejected first ([left_first] says which
    one when both were). *)
Definition Promise_all2 {A B : Type} (ra : result A) (rb : result B)
    (left_first : bool) : result (A * B) :=
  match ra, rb with
  | Fulfilled a, Fulfilled b => Fulfilled (a, b)
  | Rejected e, Fulfilled _ => Rejected e
  | Fulfilled _, Rejected e => Rejected e
  | Rejected ea, Rejected eb => Rejected (if left_first then ea else eb)
  end.

(* ================================================================== *)
(** * The collaborators *)

(** Built-ins of the language and of Node that the program calls. *)
Class Builtins : Type := {
  toLowerCase : string -> string;
  toLocaleLowerCase : string -> string;
  path_join : string -> string -> string
}.

(** The browser seen from the program: each call answers with a settled
    promise and a new state of the outside world. *)
Class Playwright (World : Type) : Type := {
  browser_launch : bool -> World -> result unit * World;
  browser_newPage : World -> result unit * World;
  browser_close : World -> result unit * World;
  page_goto : string -> option N -> World -> result unit * World;
  page_waitForSelector : string -> option N -> World -> result unit * World;
  locator_count : Locator -> World -> result nat * World;
  locator_textContent : Locator -> World -> result (option string) * World;
  locator_click : Locator -> option N -> World -> result unit * World;
  (** [page.waitForEvent(name)] and [locator.click({timeout})] issued
      together: how the two promises settle, and whether the first one
      settled first. *)
  page_waitForEvent_with_click :
    string -> Locator -> option N -> World ->
    (result Download * result unit * bool) * World;
  download_saveAs : Download -> string -> World -> result unit * World;
  download_delete : Download -> World -> result unit * World;
  multibar_create : nat -> World -> SingleBar * World
}.

(** One entry of the trace per call the program makes. *)
Inductive Event : Type :=
  | ELaunch (debug : bool)
  | ENewPage
  | EBrowserClose
  | EGoto (url : string) (timeout : option N)
  | EWaitForSelector (sel : string) (timeout : option N)
  | ECount (l : Locator)
  | ETextContent (l : Locator)
  | EClick (l : Locator) (timeout : option N)
  | EWaitForEvent (name : string)
  | ESaveAs (d : Download) (path : string)
  | EDelete (d : Download)
  | EConsoleWarn (msg : string)
  | EConsoleError (msg : string)
  | EConsoleInfo (msg : string)
  | EBarCreate (total : nat)
  | EBarUpdate (bar : SingleBar) (type dlName : string)
  | EBarIncrement (bar : SingleBar) (type dlName : string)
  | EBarStop (bar : SingleBar)
  | EBarRemove (bar : SingleBar)
  | ESleep (ms : N)
  | EExit.

(* ================================================================== *)
(** * The monad of asynchronous code *)

Record State (World : Type) : Type := mkState {
  world : World;
  trace : list Event
}.
Arguments mkState {World} world trace.
Arguments world {World} s.
Arguments trace {World} s.

(** An [async] function: from a state to a settled promise and a state. *)
Definition M (World A : Type) : Type := State World -> result A * State World.

Section Monad.
Context {World : Type}.

Definition ret {A : Type} (a : A) : M World A := fun st => (Fulfilled a, st).

Definition throw {A : Type} (e : JsError) : M World A :=
  fun st => (Rejected e, st).

(** [await m; f]: a rejection of [m] skips [f]. *)
Definition bind {A B : Type} (m : M World A) (f : A -> M World B) : M World B :=
  fun st =>
    match m st with
    | (Fulfilled a, st') => f a st'
    | (Rejected e, st') => (Rejected e, st')
    end.

(** [m.catch(h)]. *)
Definition catch {A : Type} (m : M World A) (h : JsError -> M World A) : M World A :=
  fun st =>
    match m st with
    | (Fulfilled a, st') => (Fulfilled a, st')
    | (Rejected e, st') => h e st'
    end.

(** A call that only leaves a mark in the trace. *)
Definition emit (ev : Event) : M World unit :=
  fun st => (Fulfilled tt, mkState (world st) (trace st ++ [ev])).

(** A call answered by the outside world. *)
Definition call {A : Type} (ev : Event) (h : World -> result A * World) : M World A :=
  fun st =>
    let (r, w) := h (world st) in
    (r, mkState w (trace st ++ [ev])).
End Monad.

Declare Scope js_scope.
Delimit Scope js_scope with js.
Notation "x <- m ;; k" := (bind m (fun x => k))
  (at level 61, m at next level, right associativity) : js_scope.
Notation "m ;; k" := (bind m (fun _ => k))
  (at level 61, right associativity) : js_scope.
Open Scope js_scope.

(* ================================================================== *)
(** * src/platforms.js *)

(** The object literal, in the order of its keys. *)
Definition PLATFORMS : list (string * string) :=
  [ ("win32-x64", "Windows x64");
    ("win32-ia32", "Windows ia32");
    ("win32-arm64", "Windows ARM");
    ("linux-x64", "Linux x64");
    ("linux-arm64", "Linux ARM64");
    ("linux-armhf", "Linux ARM32");
    ("darwin-x64", "macOS Intel");
    ("darwin-arm64", "macOS Apple Silicon");
    ("alpine-x64", "Alpine Linux 64 bit");
    ("web", "Web");
    ("alpine-arm64", "Alpine Linux ARM64") ].

(** [obj[key]]: [None] is [undefined]. *)
Fixpoint js_get (obj : list (string * string)) (key : string) : option string :=
  match obj with
  | [] => None
  | (k, v) :: rest => if String.eqb k key then Some v else js_get rest key
  end.

(** [Object.keys(obj)]. *)
Definition Object_keys (obj : list (string * string)) : list string :=
  map fst obj.

(* ================================================================== *)
(** * src/index.js: the types and the command line *)

Record CmdArgs : Type := mkCmdArgs {
  input : string;
  output : string;
  timeout : N;
  platform : list string;
  debug : bool
}.

Record Extension : Type := mkExtension {
  id : string;
  url : string
}.

Section IndexArgs.
Context {JS : Builtins}.

(** [xs.map((x) => PLATFORMS[x].toLocaleLowerCase())]: reading a property
    of [undefined] throws a [TypeError]. *)
Fixpoint map_platform_names (xs : list string) : result (list string) :=
  match xs with
  | [] => Fulfilled []
  | x :: rest =>
      match js_get PLATFORMS x with
      | None => Rejected (TypeError "Cannot read properties of undefined")
      | Some name =>
          match map_platform_names rest with
          | Fulfilled names => Fulfilled (toLocaleLowerCase name :: names)
          | Rejected e => Rejected e
          end
      end
  end.

(** [_parseCmdArgs], from the point where yargs has produced [argv]:
    [argv.platform = argv.platform.map(...); return argv]. *)
Definition _parseCmdArgs (argv : CmdArgs) : result CmdArgs :=
  match map_platform_names (platform argv) with
  | Fulfilled names =>
      Fulfilled (mkCmdArgs (input argv) (output argv) (timeout argv) names (debug argv))
  | Rejected e => Rejected e
  end.

(** [_getVsCodeUrl]; the [href] of the URL. *)
Definition _getVsCodeUrl (extId : string) : string :=
  "https://marketplace.visualstudio.com/items?itemName=" ++ extId.
End IndexArgs.

(* ================================================================== *)
(** * src/download.js *)

Definition PLATFORM_CAP_SELECTOR : string := "div.capabilities-list-item".
Definition DL_BTN_SELECTOR : string := "[aria-label='Download Extension']".
Definition DL_CHV_SELECTOR : string := "i[data-icon-name='ChevronDown']".
Definition DL_PLATFORM_SELECTOR : string := "i[data-icon-name='Download']".
Definition DL_PLATFORM_NAME_SELECTOR : string := "i[data-icon-name='Download']+span".

Record PlatformTask : Type := mkPlatformTask {
  selectorIdx : nat;
  extName : string
}.

Section Download.
Context {JS : Builtins} {World : Type} {PW : Playwright World}.

(** ** The calls, each with its mark in the trace *)

Definition goto (href : string) (timeoutMs : option N) : M World unit :=
  call (EGoto href timeoutMs) (page_goto href timeoutMs).

Definition waitForSelector (sel : string) (timeoutMs : option N) : M World unit :=
  call (EWaitForSelector sel timeoutMs) (page_waitForSelector sel timeoutMs).

Definition count (l : Locator) : M World nat :=
  call (ECount l) (locator_count l).

Definition textContent (l : Locator) : M World (option string) :=
  call (ETextContent l) (locator_textContent l).

Definition click (l : Locator) (timeoutMs : option N) : M World unit :=
  call (EClick l timeoutMs) (locator_click l timeoutMs).

(** [Promise.all([page.waitForEvent(name), locator.click({timeout})])]:
    the wait is issued, then the click, then both are awaited. *)
Definition all_waitForEvent_click (name : string) (l : Locator)
    (timeoutMs : option N) : M World (Download * unit) :=
  fun st =>
    let '(rd, rc, left_first, w) :=
      page_waitForEvent_with_click name l timeoutMs (world st) in
    (Promise_all2 rd rc left_first,
     mkState w (trace st ++ [EWaitForEvent name; EClick l timeoutMs])).

Definition saveAs (d : Download) (path : string) : M World unit :=
  call (ESaveAs d path) (download_saveAs d path).

Definition delete (d : Download) : M World unit :=
  call (EDelete d) (download_delete d).

Definition console_warn (msg : string) : M World unit := emit (EConsoleWarn msg).
Definition console_error (msg : string) : M World unit := emit (EConsoleError msg).
Definition console_info (msg : string) : M World unit := emit (EConsoleInfo msg).

Definition bar_create (total : nat) : M World SingleBar :=
  fun st =>
    let (b, w) := multibar_create total (world st) in
    (Fulfilled b, mkState w (trace st ++ [EBarCreate total])).

(** ** The functions of the module *)

Definition _navigateTo (ext : Extension) (timeoutMs : option N) : M World unit :=
  goto (url ext) timeoutMs ;;
  waitForSelector DL_BTN_SELECTOR timeoutMs.

Definition _hasMultiplePlatforms : M World bool :=
  x <- count (Loc DL_CHV_SELECTOR) ;;
  ret (Nat.eqb x 1).

Definition _hasSpecifiedPlatforms (platforms : list string) (matchAll : bool)
    : M World bool :=
  availablePlatforms <-
    (x <- textContent (Loc PLATFORM_CAP_SELECTOR) ;;
     ret (option_map toLocaleLowerCase x)) ;;
  match availablePlatforms with
  | None => ret false
  | Some availablePlatforms =>
      if includes availablePlatforms "universal" then ret true
      else if matchAll then
        ret (forallb (fun platform => includes availablePlatforms platform) platforms)
      else
        ret (existsb (fun platform => includes availablePlatforms platform) platforms)
  end.

Definition _clickAndDl (dlName : string) (timeout : N)
    (selector : string + Locator) (outputDir : string) : M World unit :=
  let locator :=
    match selector with
    | inl s => Loc s
    | inr l => l
    end in
  downloadResp <-
    catch (x <- all_waitForEvent_click "download" locator (Some timeout) ;;
           ret (fst x))
          (fun err =>
             console_error ("Failed on downloading " ++ dlName) ;;
             throw err) ;;
  let savePath := path_join outputDir (suggestedFilename downloadResp) in
  saveAs downloadResp savePath ;;
  delete downloadResp.
End Download.

Module SinglePlatform.
Section SinglePlatform.
Context {JS : Builtins} {World : Type} {PW : Playwright World}.

Definition run (options : CmdArgs) (ext : Extension) : M World unit :=
  ok <- _hasSpecifiedPlatforms (platform options) true ;;
  if negb ok then
    console_warn (String "010" ("Skipping " ++ id ext ++
      " as it does not have the desired platform[s]" ++ String "010" ""))
  else
    _clickAndDl "-" (timeout options) (inl DL_BTN_SELECTOR) (output options).
End SinglePlatform.
End SinglePlatform.

Module MultiPlatform.
(** The object: the fields of the constructor that the methods read
    (the page and the multi-bar are the ones of the world), and the two
    private fields that [init] fills in. *)
Record t : Type := mk {
  _ext : Extension;
  _options : CmdArgs;
  platformTaskList : list PlatformTask;
  progressBar : SingleBar
}.

Section MultiPlatform.
Context {JS : Builtins} {World : Type} {PW : Playwright World}.

(** [#isDropdownExists]: a time-out is the answer [false]. *)
Definition isDropdownExists (timeoutMs : N) : M World bool :=
  catch (waitForSelector DL_PLATFORM_SELECTOR (Some timeoutMs) ;; ret true)
        (fun _ => ret false).

(** [assert(value)]. *)
Definition assert (b : bool) : M World unit :=
  if b then ret tt else throw AssertionError.

(** [#ensureDropdownExists]. *)
Definition ensureDropdownExists : M World unit :=
  isOpen <- isDropdownExists 10000%N ;;
  if negb isOpen then
    click (Loc DL_BTN_SELECTOR) None ;;
    waitForSelector DL_PLATFORM_SELECTOR None ;;
    again <- isDropdownExists 10000%N ;;
    assert again
  else ret tt.

(** The [for] loop of [#computePlatformTaskList], at index [i] with
    [remaining = allSelectorsCount - i] rounds to go. *)
Fixpoint filterEntries (whitelistPlatforms : list string) (remaining i : nat)
    (platformTaskList : list PlatformTask) : M World (list PlatformTask) :=
  match remaining with
  | 0 => ret platformTaskList
  | S remaining' =>
      text <- textContent (Nth (Loc DL_PLATFORM_NAME_SELECTOR) i) ;;
      match option_map toLowerCase text with
      | Some platformName =>
          if array_includes whitelistPlatforms platformName then
            filterEntries whitelistPlatforms remaining' (S i)
              (platformTaskList ++ [mkPlatformTask i platformName])
          else
            filterEntries whitelistPlatforms remaining' (S i) platformTaskList
      | None =>
          filterEntries whitelistPlatforms remaining' (S i) platformTaskList
      end
  end.

(** [#computePlatformTaskList]. *)
Definition computePlatformTaskList (options : CmdArgs) : M World (list PlatformTask) :=
  let whitelistPlatforms := platform options in
  ensureDropdownExists ;;
  allSelectorsCount <- count (Loc DL_PLATFORM_NAME_SELECTOR) ;;
  filterEntries whitelistPlatforms allSelectorsCount 0 [].

(** [MultiPlatform.init]: [None] is the [undefined] of the early return. *)
Definition init (ext : Extension) (options : CmdArgs) : M World (option t) :=
  ok <- _hasSpecifiedPlatforms (platform options) false ;;
  if negb ok then
    console_warn ("Skipping " ++ id ext ++
      " as it does not have the desired platform[s]") ;;
    ret None
  else
    tasks <- computePlatformTaskList options ;;
    bar <- bar_create (length tasks) ;;
    ret (Some (mk ext options tasks bar)).

(** The [for ... of] loop of [run]. *)
Fixpoint runTasks (this : t) (tasks : list PlatformTask) : M World unit :=
  match tasks with
  | [] => ret tt
  | task :: rest =>
      emit (EBarUpdate (progressBar this) "platforms" (extName task)) ;;
      ensureDropdownExists ;;
      let allPlatformBtns := Loc DL_PLATFORM_SELECTOR in
      let btn := Nth allPlatformBtns (selectorIdx task) in
      _clickAndDl (extName task) (timeout (_options this)) (inr btn)
        (output (_options this)) ;;
      emit (EBarIncrement (progressBar this) "platforms" (extName task)) ;;
      runTasks this rest
  end.

(** [run]. *)
Definition run (this : t) : M World unit :=
  runTasks this (platformTaskList this) ;;
  emit (EBarStop (progressBar this)) ;;
  emit (EBarRemove (progressBar this)).
End MultiPlatform.
End MultiPlatform.

Section DlExt.
Context {JS : Builtins} {World : Type} {PW : Playwright World}.

(** The default export of the module. *)
Definition dlExt (ext : Extension) (options : CmdArgs) : M World unit :=
  _navigateTo ext None ;;
  multi <- _hasMultiplePlatforms ;;
  if multi then
    x <- MultiPlatform.init ext options ;;
    match x with
    | Some x => MultiPlatform.run x
    | None => ret tt
    end
  else
    SinglePlatform.run options ext.

(** ** src/index.js: the loop over the extensions *)

(** The [for ... of] loop of [_setupBrowserAndBegin]. *)
Fixpoint extensionsLoop (progressBar : SingleBar) (extensions : list Extension)
    (options : CmdArgs) : M World unit :=
  match extensions with
  | [] => ret tt
  | ext :: rest =>
      emit (EBarUpdate progressBar "extensions" (id ext)) ;;
      catch (dlExt ext options)
            (fun err =>
               console_error (String "010" ("Error on " ++ id ext)) ;;
               throw err) ;;
      emit (EBarIncrement progressBar "extensions" (id ext)) ;;
      extensionsLoop progressBar rest options
  end.

Definition _setupBrowserAndBegin (extensions : list Extension) (options : CmdArgs)
    : M World unit :=
  call (ELaunch (debug options)) (browser_launch (debug options)) ;;
  call ENewPage browser_newPage ;;
  progressBar <- bar_create (length extensions) ;;
  extensionsLoop progressBar extensions options ;;
  emit (EBarStop progressBar) ;;
  call EBrowserClose browser_close ;;
  emit (ESleep 1000%N) ;;
  console_info (String "010" "All done!") ;;
  emit EExit.
End DlExt.

(* ================================================================== *)
(** * What the page serves, and the spec's reading of the enumeration *)

Section Observation.
Context {JS : Builtins} {World : Type} {PW : Playwright World}.

(** The texts of the [remaining] entries from position [i] on, as the
    page answers for them one after the other: the calls of the loop of
    [#computePlatformTaskList], with every answer kept. *)
Fixpoint readEntries (remaining i : nat) : M World (list (option string)) :=
  match remaining with
  | 0 => ret []
  | S remaining' =>
      text <- textContent (Nth (Loc DL_PLATFORM_NAME_SELECTOR) i) ;;
      texts <- readEntries remaining' (S i) ;;
      ret (text :: texts)
  end.

(** The design document's enumeration over the texts of the entries:
    entry [i] gives the task [(i, name)] when its lower-cased text
    [name] is a member of [requested], in the order of the entries. *)
Fixpoint enumerate_spec (requested : list string) (i : nat)
    (texts : list (option string)) : list PlatformTask :=
  match texts with
  | [] => []
  | None :: rest => enumerate_spec requested (S i) rest
  | Some text :: rest =>
      if array_includes requested (toLowerCase text)
      then mkPlatformTask i (toLowerCase text) :: enumerate_spec requested (S i) rest
      else enumerate_spec requested (S i) rest
  end.
End Observation.

(** [sub] occurs in [s]. *)
Definition IsSubstring (sub s : string) : Prop :=
  exists pre post, s = pre ++ sub ++ post.

(** The design document's [satisfiesPlatforms], on the text of the
    capability list: the text is there, and either its lower-cased form
    contains "universal", or every requested platform occurs in it
    (policy ALL, [matchAll = true]), or at least one does (policy ANY). *)
Definition satisfiesPlatforms {JS : Builtins} (text : option string)
    (requested : list string) (matchAll : bool) : Prop :=
  match text with
  | None => False
  | Some t =>
      let available := toLocaleLowerCase t in
      IsSubstring "universal" available \/
      (if matchAll
       then Forall (fun p => IsSubstring p available) requested
       else Exists (fun p => IsSubstring p available) requested)
  end.

(* ================================================================== *)
(** * Reading traces *)

Section Traces.
Context {World : Type}.

(** [emits P m]: whatever [m] does, it only adds events of kind [P] to
    the trace, and it adds them at the end. *)
Definition emits {A : Type} (P : Event -> Prop) (m : M World A) : Prop :=
  forall st r st', m st = (r, st') ->
    exists evs, trace st' = (trace st ++ evs)%list /\ Forall P evs.
End Traces.

(** The trigger of a download: a selector of the page, or a locator. *)
Definition locator_of (selector : string + Locator) : Locator :=
  match selector with
  | inl s => Loc s
  | inr l => l
  end.

(** What follows the click of a download in the trace. *)
Definition afterClick (ev : Event) : Prop :=
  match ev with
  | ESaveAs _ _ | EDelete _ | EConsoleError _ => True
  | _ => False
  end.

(** The calls of the capability probe and of the enumeration: waits for
    a selector, counts, reads of a text, the click that opens the
    dropdown (on a selector of the page, with no time-out), the creation
    of a progress bar. *)
Definition probeEvent (ev : Event) : Prop :=
  match ev with
  | EWaitForSelector _ _ | ECount _ | ETextContent _ | EBarCreate _ => True
  | EClick (Loc _) None => True
  | _ => False
  end.

(** The positions of the dropdown that a trace clicks, in order. *)
Fixpoint entryClicks (evs : list Event) : list nat :=
  match evs with
  | [] => []
  | EClick (Nth (Loc sel) i) _ :: rest =>
      if String.eqb sel DL_PLATFORM_SELECTOR then i :: entryClicks rest
      else entryClicks rest
  | _ :: rest => entryClicks rest
  end.

Section Clicks.
Context {World : Type}.

(** [clicks l m]: [m] clicks the positions [l] of the dropdown, in this
    order, when it is fulfilled, and a first part of them when it is
    rejected. *)
Definition clicks {A : Type} (l : list nat) (m : M World A) : Prop :=
  forall st r st', m st = (r, st') ->
    exists evs,
      trace st' = (trace st ++ evs)%list /\
      match r with
      | Fulfilled _ => entryClicks evs = l
      | Rejected _ => exists rest, l = (entryClicks evs ++ rest)%list
      end.
End Clicks.

(** The events of a download: the wait for its start, the save, the
    release of the handle, a click on an entry of the dropdown or a click
    bounded by the download time-out. *)
Definition isDownloadEvent (ev : Event) : bool :=
  match ev with
  | EWaitForEvent _ | ESaveAs _ _ | EDelete _ => true
  | EClick (Nth _ _) _ => true
  | EClick _ (Some _) => true
  | _ => false
  end.

(** A warning on the console. *)
Definition isWarning (ev : Event) : bool :=
  match ev with
  | EConsoleWarn _ => true
  | _ => false
  end.

(** The opening of a page. *)
Definition isGoto (ev : Event) : bool :=
  match ev with
  | EGoto _ _ => true
  | _ => false
  end.

(** Every download that a trace saves, it releases too. *)
Definition releasesSaved (evs : list Event) : Prop :=
  forall d path, In (ESaveAs d path) evs -> In (EDelete d) evs.

(* ================================================================== *)
(** * A scripted page, to run the program on *)

(** Lower-casing of the letters A to Z. *)
Definition ascii_lower (c : ascii) : ascii :=
  let n := nat_of_ascii c in
  if (65 <=? n)%nat && (n <=? 90)%nat then ascii_of_nat (n + 32) else c.

Fixpoint string_lower (s : string) : string :=
  match s with
  | EmptyString => EmptyString
  | String c s' => String (ascii_lower c) (string_lower s')
  end.

Definition AsciiBuiltins : Builtins := {|
  toLowerCase := string_lower;
  toLocaleLowerCase := string_lower;
  path_join := fun dir file => dir ++ "/" ++ file
|}.

(** A marketplace page that answers the same for every extension. *)
Record Sim : Type := mkSim {
  sim_chevrons : nat;                 (* elements under DL_CHV_SELECTOR *)
  sim_capabilities : option string;   (* text under PLATFORM_CAP_SELECTOR *)
  sim_entries : list (option string); (* texts of the dropdown's entries *)
  sim_open : bool;                    (* the dropdown is open *)
  sim_opens : bool;                   (* a click on the button opens it *)
  sim_click_ok : bool;                (* a download click goes through *)
  sim_download_ok : bool;             (* the download event fires *)
  sim_save_ok : bool;                 (* the stream can be saved *)
  sim_bars : nat                      (* progress bars created so far *)
}.

Definition sim_set_open (b : bool) (w : Sim) : Sim :=
  mkSim (sim_chevrons w) (sim_capabilities w) (sim_entries w) b (sim_opens w)
        (sim_click_ok w) (sim_download_ok w) (sim_save_ok w) (sim_bars w).

Definition sim_answer (ok : bool) (msg : string) : result unit :=
  if ok then Fulfilled tt else Rejected (TimeoutError msg).

Definition SimPlaywright : Playwright Sim := {|
  browser_launch := fun _ w => (Fulfilled tt, w);
  browser_newPage := fun w => (Fulfilled tt, w);
  browser_close := fun w => (Fulfilled tt, w);
  page_goto := fun _ _ w => (Fulfilled tt, sim_set_open false w);
  page_waitForSelector := fun sel _ w =>
    if String.eqb sel DL_PLATFORM_SELECTOR
    then (sim_answer (sim_open w) "waitForSelector", w)
    else (Fulfilled tt, w);
  locator_count := fun l w =>
    match l with
    | Loc sel =>
        if String.eqb sel DL_CHV_SELECTOR then (Fulfilled (sim_chevrons w), w)
        else if String.eqb sel DL_PLATFORM_NAME_SELECTOR
        then (Fulfilled (if sim_open w then length (sim_entries w) else 0), w)
        else (Fulfilled 0, w)
    | Nth _ _ => (Fulfilled 1, w)
    end;
  locator_textContent := fun l w =>
    match l with
    | Loc sel =>
        if String.eqb sel PLATFORM_CAP_SELECTOR
        then (Fulfilled (sim_capabilities w), w)
        else (Fulfilled None, w)
    | Nth _ i =>
        match nth_error (sim_entries w) i with
        | Some text => (Fulfilled text, w)
        | None => (Rejected (TimeoutError "textContent"), w)
        end
    end;
  locator_click := fun _ _ w => (Fulfilled tt, sim_set_open (sim_opens w) w);
  page_waitForEvent_with_click := fun _ _ _ w =>
    ((if sim_download_ok w && sim_click_ok w
      then Fulfilled (mkDownload 0 "ext.vsix")
      else Rejected (TimeoutError "waitForEvent"),
      sim_answer (sim_click_ok w) "click",
      sim_click_ok w),
     sim_set_open false w);
  download_saveAs := fun _ _ w => (sim_answer (sim_save_ok w) "saveAs", w);
  download_delete := fun _ w => (Fulfilled tt, w);
  multibar_create := fun _ w =>
    (sim_bars w,
     mkSim (sim_chevrons w) (sim_capabilities w) (sim_entries w) (sim_open w)
           (sim_opens w) (sim_click_ok w) (sim_download_ok w) (sim_save_ok w)
           (S (sim_bars w)))
|}.

(** The program on the scripted page. *)
Definition sim_start (w : Sim) : State Sim := mkState w [].

Definition sim_options (platforms : list string) : CmdArgs :=
  mkCmdArgs "extensions.txt" "out" 180000%N platforms false.

Definition sim_ext (extId : string) : Extension :=
  mkExtension extId (@_getVsCodeUrl extId).

(** One build, for Windows x64. *)
Definition sim_single : Sim :=
  mkSim 0 (Some "Works with Windows x64") [] false false true true true 0.

(** Three builds behind a dropdown. *)
Definition sim_multi : Sim :=
  mkSim 1 (Some "Works with Windows x64, Linux x64, macOS Intel")
        [Some "Windows x64"; Some "Linux x64"; None; Some "macOS Intel"]
        true true true true true 0.

(** One build, whose download cannot be written to the disk. *)
Definition sim_unsaved : Sim :=
  mkSim 0 (Some "Works with Windows x64") [] false false true true false 0.

(** One build, whose download button does not answer the click. *)
Definition sim_stuck : Sim :=
  mkSim 0 (Some "Works with Windows x64") [] false false false true true 0.

(** Several builds, of which the page names Windows x64 alone. *)
Definition sim_windows_only : Sim :=
  mkSim 1 (Some "Works with Windows x64") [Some "Windows x64"]
        false true true true true 0.

(** Several builds behind a dropdown that lists none of them under the
    name that the capability list gives. *)
Definition sim_unlisted : Sim :=
  mkSim 1 (Some "Works with Linux x64") [Some "Linux x64 (pre-release)"; None]
        false true true true true 0.

(* ================================================================== *)
(** * src/index.js: the list of extensions *)

(** [s.split("\n")]: the pieces of [s] between its line feeds. *)
Fixpoint split_newline (s : string) : list string :=
  match s with
  | EmptyString => [EmptyString]
  | String c s' =>
      if Ascii.eqb c "010" then EmptyString :: split_newline s'
      else
        match split_newline s' with
        | [] => [String c EmptyString]
        | line :: rest => String c line :: rest
        end
  end.

(** A string as a condition: the empty string is falsy. *)
Definition truthy (s : string) : bool := negb (String.eqb s "").

(** [String.prototype.trim]. *)
Class StringTrim : Type := {
  trim : string -> string
}.

(** The two calls of [node:fs] that the program makes on its input. *)
Class NodeFs : Type := {
  fs_existsSync : string -> bool;
  fs_readFileSync : string -> result string
}.

Section LoadExtList.
Context {ST : StringTrim} {FS : NodeFs}.

(** [_loadExtList]: the [assert] on a missing file throws. *)
Definition _loadExtList (inputPath : string) : result (list Extension) :=
  if fs_existsSync inputPath then
    match fs_readFileSync inputPath with
    | Fulfilled content =>
        let listRaw := split_newline content in
        Fulfilled
          (map (fun x => mkExtension x (_getVsCodeUrl x))
             (filter truthy (map trim (filter truthy listRaw))))
    | Rejected e => Rejected e
    end
  else Rejected AssertionError.
End LoadExtList.

(* ================================================================== *)
(** * Reading traces, continued *)

Section Observes.
Context {World : Type}.

(** [observes f l m]: read through [f], which keeps some events of the
    trace as marks, [m] leaves the marks [l] when it is fulfilled and a
    first part of [l] when it is rejected. *)
Definition observes {A X : Type} (f : Event -> list X) (l : list X)
    (m : M World A) : Prop :=
  forall st r st', m st = (r, st') ->
    exists evs,
      trace st' = (trace st ++ evs)%list /\
      match r with
      | Fulfilled _ => flat_map f evs = l
      | Rejected _ => exists rest, l = (flat_map f evs ++ rest)%list
      end.
End Observes.

(** The steps of the downloads of a package. *)
Inductive Step : Type :=
  | Clicked (position : nat)
  | Saved
  | Released
  | Reported (dlName : string)
  | Stopped.

(** The step that an event is, if any: a click on an entry of the
    dropdown, a save, a release, an increment or the stop of a bar. *)
Definition step (ev : Event) : list Step :=
  match ev with
  | EClick (Nth (Loc sel) i) _ =>
      if String.eqb sel DL_PLATFORM_SELECTOR then [Clicked i] else []
  | ESaveAs _ _ => [Saved]
  | EDelete _ => [Released]
  | EBarIncrement _ _ dlName => [Reported dlName]
  | EBarStop _ => [Stopped]
  | _ => []
  end.

(** The steps of the tasks of a package, when all go through. *)
Definition taskSteps (tasks : list PlatformTask) : list Step :=
  flat_map (fun task =>
              [Clicked (selectorIdx task); Saved; Released; Reported (extName task)])
           tasks.

(** The milestones of a whole run. *)
Inductive Milestone : Type :=
  | Visited (href : string)
  | BrowserClosed
  | ProcessExited.

Definition milestone (ev : Event) : list Milestone :=
  match ev with
  | EGoto href _ => [Visited href]
  | EBrowserClose => [BrowserClosed]
  | EExit => [ProcessExited]
  | _ => []
  end.

(** The events of the visit of one package, once its page is asked for:
    none is a call on the browser itself, the opening of a page or the
    end of the run, and a save goes to [dir], under the name that the
    server suggests for the download. *)
Definition visitEvent {JS : Builtins} (dir : string) (ev : Event) : Prop :=
  match ev with
  | ESaveAs d path => path = path_join dir (suggestedFilename d)
  | ELaunch _ | ENewPage | EBrowserClose | EGoto _ _
  | EConsoleInfo _ | ESleep _ | EExit => False
  | _ => True
  end.

(* ================================================================== *)
(** * The scripted page, continued *)

(** White space of the ASCII range: tab, line feed, vertical tab, form
    feed, carriage return, space. *)
Definition ascii_space (c : ascii) : bool :=
  let n := nat_of_ascii c in
  ((9 <=? n)%nat && (n <=? 13)%nat) || (n =? 32)%nat.

Fixpoint trim_start (s : string) : string :=
  match s with
  | EmptyString => EmptyString
  | String c s' => if ascii_space c then trim_start s' else s
  end.

Fixpoint trim_end (s : string) : string :=
  match s with
  | EmptyString => EmptyString
  | String c s' =>
      match trim_end s' with
      | EmptyString => if ascii_space c then EmptyString else String c EmptyString
      | rest => String c rest
      end
  end.

Definition AsciiTrim : StringTrim := {|
  trim := fun s => trim_end (trim_start s)
|}.

(** A disk with one file, [extensions.txt]. *)
Definition sim_fs (content : string) : NodeFs := {|
  fs_existsSync := fun path => String.eqb path "extensions.txt";
  fs_readFileSync := fun path =>
    if String.eqb path "extensions.txt" then Fulfilled content
    else Rejected (PlaywrightError "ENOENT")
|}.

(** Several builds behind a dropdown that a click does not open. *)
Definition sim_closed : Sim :=
  mkSim 1 (Some "Works with Windows x64") [Some "Windows x64"]
        false false true true true 0.

(** A browser with no network: every call on the page is rejected. *)
Definition OfflinePlaywright : Playwright unit :=
  let offline {A : Type} : result A * unit :=
    (Rejected (PlaywrightError "net::ERR_INTERNET_DISCONNECTED"), tt) in
  {|
    browser_launch := fun _ w => (Fulfilled tt, w);
    browser_newPage := fun w => (Fulfilled tt, w);
    browser_close := fun w => (Fulfilled tt, w);
    page_goto := fun _ _ _ => offline;
    page_waitForSelector := fun _ _ _ => offline;
    locator_count := fun _ _ => offline;
    locator_textContent := fun _ _ => offline;
    locator_click := fun _ _ _ => offline;
    page_waitForEvent_with_click := fun _ _ _ _ => ((fst offline, fst offline, true), tt);
    download_saveAs := fun _ _ _ => offline;
    download_delete := fun _ _ => offline;
    multibar_create := fun _ w => (0, w)
  |}.

(* ================================================================== *)
(** * Strings *)

Lemma prefix_append (sub post : string) : String.prefix sub (sub ++ post) = true.
Proof.
  induction sub as [|c sub IH]; simpl.
  - destruct post; reflexivity.
  - destruct (ascii_dec c c) as [_|ne]; [exact IH | now contradiction ne].
Qed.

Lemma prefix_split (sub s : string) :
  String.prefix sub s = true -> exists post, s = sub ++ post.
Proof.
  revert s; induction sub as [|c sub IH]; intros s H.
  - exists s; reflexivity.
  - destruct s as [|d s]; simpl in H; [discriminate|].
    destruct (ascii_dec c d) as [->|_]; [|discriminate].
    destruct (IH s H) as [post ->]. exists post; reflexivity.
Qed.

Lemma includes_unfold (s sub : string) :
  includes s sub =
  String.prefix sub s ||
  match s with
  | EmptyString => false
  | String _ s' => includes s' sub
  end.
Proof. destruct s; reflexivity. Qed.

(** [includes] decides occurrence. *)
Lemma includes_spec (s sub : string) :
  includes s sub = true <-> IsSubstring sub s.
Proof.
  unfold IsSubstring; split.
  - induction s as [|c s IH]; rewrite includes_unfold; intros H;
      apply orb_true_iff in H as [H|H]; try discriminate.
    + destruct (prefix_split _ _ H) as [post E]. exists "", post; exact E.
    + destruct (prefix_split _ _ H) as [post E]. exists "", post; exact E.
    + destruct (IH H) as (pre & post & ->).
      exists (String c pre), post; reflexivity.
  - intros (pre & post & ->).
    induction pre as [|c pre IH].
    + rewrite includes_unfold. change ("" ++ sub ++ post) with (sub ++ post).
      rewrite prefix_append. reflexivity.
    + change (String c pre ++ sub ++ post)
        with (String c (pre ++ sub ++ post)).
      rewrite includes_unfold. cbv iota. rewrite IH. apply orb_true_r.
Qed.

Lemma includes_false (s sub : string) :
  includes s sub = false <-> ~ IsSubstring sub s.
Proof.
  rewrite <- includes_spec. destruct (includes s sub); split; intros H;
    try reflexivity; try discriminate; try (intros K; discriminate).
  now contradiction H.
Qed.

Lemma array_includes_In (l : list string) (x : string) :
  array_includes l x = true <-> In x l.
Proof.
  unfold array_includes. rewrite existsb_exists. split.
  - intros (y & Hy & E). apply String.eqb_eq in E. now subst.
  - intros H. exists x. split; [exact H | apply String.eqb_refl].
Qed.

(* ================================================================== *)
(** * Reasoning on asynchronous code *)

Open Scope list_scope.

Section MonadFacts.
Context {World : Type}.

Lemma bind_inv {A B : Type} (m : M World A) (f : A -> M World B) st r st' :
  bind m f st = (r, st') ->
  (exists a st1, m st = (Fulfilled a, st1) /\ f a st1 = (r, st')) \/
  (exists e, m st = (Rejected e, st') /\ r = Rejected e).
Proof.
  unfold bind. destruct (m st) as [[a|e] st1]; intros H.
  - left. exists a, st1. split; [reflexivity | exact H].
  - right. exists e. inversion H; subst. split; reflexivity.
Qed.

Lemma bind_fulfilled {A B : Type} (m : M World A) (f : A -> M World B) st a st1 :
  m st = (Fulfilled a, st1) -> bind m f st = f a st1.
Proof. unfold bind. now intros ->. Qed.

Lemma bind_rejected {A B : Type} (m : M World A) (f : A -> M World B) st e st1 :
  m st = (Rejected e, st1) -> bind m f st = (Rejected e, st1).
Proof. unfold bind. now intros ->. Qed.

Lemma catch_inv {A : Type} (m : M World A) (h : JsError -> M World A) st r st' :
  catch m h st = (r, st') ->
  (exists a, m st = (Fulfilled a, st') /\ r = Fulfilled a) \/
  (exists e st1, m st = (Rejected e, st1) /\ h e st1 = (r, st')).
Proof.
  unfold catch. destruct (m st) as [[a|e] st1]; intros H.
  - left. exists a. inversion H; subst. split; reflexivity.
  - right. exists e, st1. split; [reflexivity | exact H].
Qed.

Lemma emits_ret {A : Type} P (a : A) : emits (World := World) P (ret a).
Proof.
  intros st r st' H. inversion H; subst. exists [].
  split; [now rewrite app_nil_r | constructor].
Qed.

Lemma emits_throw {A : Type} P e : emits P (@throw World A e).
Proof.
  intros st r st' H. inversion H; subst. exists [].
  split; [now rewrite app_nil_r | constructor].
Qed.

Lemma emits_emit (P : Event -> Prop) ev : P ev -> emits (World := World) P (emit ev).
Proof.
  intros HP st r st' H. inversion H; subst. exists [ev].
  split; [reflexivity | now repeat constructor].
Qed.

Lemma emits_call {A : Type} (P : Event -> Prop) ev (h : World -> result A * World) :
  P ev -> emits P (call ev h).
Proof.
  intros HP st r st' H. unfold call in H.
  destruct (h (world st)) as [r0 w]. inversion H; subst. exists [ev].
  split; [reflexivity | now repeat constructor].
Qed.

Lemma emits_bind {A B : Type} P (m : M World A) (f : A -> M World B) :
  emits P m -> (forall a, emits P (f a)) -> emits P (bind m f).
Proof.
  intros Hm Hf st r st' H.
  destruct (bind_inv _ _ _ _ _ H) as [(a & st1 & H1 & H2)|(e & H1 & _)].
  - destruct (Hm _ _ _ H1) as (evs1 & E1 & F1).
    destruct (Hf a _ _ _ H2) as (evs2 & E2 & F2).
    exists (evs1 ++ evs2). rewrite E2, E1, app_assoc.
    split; [reflexivity | now apply Forall_app].
  - exact (Hm _ _ _ H1).
Qed.

Lemma emits_catch {A : Type} P (m : M World A) (h : JsError -> M World A) :
  emits P m -> (forall e, emits P (h e)) -> emits P (catch m h).
Proof.
  intros Hm Hh st r st' H.
  destruct (catch_inv _ _ _ _ _ H) as [(a & H1 & _)|(e & st1 & H1 & H2)].
  - exact (Hm _ _ _ H1).
  - destruct (Hm _ _ _ H1) as (evs1 & E1 & F1).
    destruct (Hh e _ _ _ H2) as (evs2 & E2 & F2).
    exists (evs1 ++ evs2). rewrite E2, E1, app_assoc.
    split; [reflexivity | now apply Forall_app].
Qed.

End MonadFacts.

Ltac inv_bind H :=
  let a := fresh "a" in
  let st1 := fresh "st" in
  let e := fresh "e" in
  let H1 := fresh "Hm" in
  let H2 := fresh "Hk" in
  apply bind_inv in H;
  destruct H as [(a & st1 & H1 & H2)|(e & H1 & H2)].

(* ================================================================== *)
(** * The capability probe *)

(** C9. [_hasMultiplePlatforms] answers [true] exactly when the page
    counts one expand-variants chevron: for a count of zero, or of two or
    more, it answers [false]. *)
Theorem hasMultiplePlatforms_exactly_one
    {World : Type} {PW : Playwright World} (st : State World) (n : nat) (w : World) :
  locator_count (Loc DL_CHV_SELECTOR) (world st) = (Fulfilled n, w) ->
  exists b,
    _hasMultiplePlatforms st =
      (Fulfilled b, mkState w (trace st ++ [ECount (Loc DL_CHV_SELECTOR)])) /\
    (b = true <-> n = 1) /\
    (n = 0 \/ 2 <= n -> b = false).
Proof.
  intros H. exists (Nat.eqb n 1).
  unfold _hasMultiplePlatforms, bind, count, call, ret. rewrite H.
  split; [reflexivity|]. split.
  - apply Nat.eqb_eq.
  - intros K. apply Nat.eqb_neq. lia.
Qed.

Lemma hasMultiplePlatforms_exactly_one_witness :
  exists b,
    _hasMultiplePlatforms (PW := SimPlaywright) (sim_start sim_multi) =
      (Fulfilled b, mkState sim_multi [ECount (Loc DL_CHV_SELECTOR)]) /\
    (b = true <-> 1 = 1) /\
    (1 = 0 \/ 2 <= 1 -> b = false).
Proof.
  apply (hasMultiplePlatforms_exactly_one (PW := SimPlaywright)
           (sim_start sim_multi) 1 sim_multi).
  reflexivity.
Defined.

(** C1. [_hasSpecifiedPlatforms], once the page has answered for the text
    of its capability list: an absent text gives [false]; a text whose
    lower-cased form contains "universal" gives [true] whatever is
    requested and whatever the policy; otherwise the answer is [true]
    exactly when every requested platform occurs in the lower-cased text
    (policy ALL), or when at least one does (policy ANY). *)
Theorem hasSpecifiedPlatforms_verdict
    {JS : Builtins} {World : Type} {PW : Playwright World}
    (platforms : list string) (matchAll : bool)
    (st : State World) (text : option string) (w : World) :
  locator_textContent (Loc PLATFORM_CAP_SELECTOR) (world st) = (Fulfilled text, w) ->
  exists b,
    _hasSpecifiedPlatforms platforms matchAll st =
      (Fulfilled b,
       mkState w (trace st ++ [ETextContent (Loc PLATFORM_CAP_SELECTOR)])) /\
    match text with
    | None => b = false
    | Some t =>
        let available := toLocaleLowerCase t in
        (IsSubstring "universal" available -> b = true) /\
        (~ IsSubstring "universal" available ->
           (matchAll = true ->
              (b = true <-> Forall (fun p => IsSubstring p available) platforms)) /\
           (matchAll = false ->
              (b = true <-> Exists (fun p => IsSubstring p available) platforms)))
    end.
Proof.
  intros H.
  unfold _hasSpecifiedPlatforms, bind, textContent, call, ret. rewrite H.
  destruct text as [t|]; simpl; [|eexists; split; reflexivity].
  destruct (includes (toLocaleLowerCase t) "universal") eqn:U.
  - eexists; split; [reflexivity|]. split; [reflexivity|].
    intros K. apply includes_spec in U. contradiction.
  - apply includes_false in U.
    destruct matchAll; eexists; (split; [reflexivity|]);
      (split; [intros K; contradiction|]); intros _; split;
      intros E; try discriminate.
    + rewrite forallb_forall, Forall_forall.
      split; intros K p Hp; apply includes_spec, K, Hp.
    + rewrite existsb_exists, Exists_exists.
      split; intros (p & Hp & K); exists p; (split; [exact Hp|]);
        apply includes_spec, K.
Qed.

Lemma hasSpecifiedPlatforms_verdict_witness :
  exists b,
    _hasSpecifiedPlatforms (JS := AsciiBuiltins) (PW := SimPlaywright)
      ["windows x64"; "linux x64"] true (sim_start sim_multi) =
      (Fulfilled b, mkState sim_multi [ETextContent (Loc PLATFORM_CAP_SELECTOR)]) /\
    let available :=
      string_lower "Works with Windows x64, Linux x64, macOS Intel" in
    (IsSubstring "universal" available -> b = true) /\
    (~ IsSubstring "universal" available ->
       (true = true ->
          (b = true <->
           Forall (fun p => IsSubstring p available) ["windows x64"; "linux x64"])) /\
       (true = false ->
          (b = true <->
           Exists (fun p => IsSubstring p available) ["windows x64"; "linux x64"]))).
Proof.
  apply (hasSpecifiedPlatforms_verdict (JS := AsciiBuiltins) (PW := SimPlaywright)
           ["windows x64"; "linux x64"] true (sim_start sim_multi)
           (Some "Works with Windows x64, Linux x64, macOS Intel") sim_multi).
  reflexivity.
Defined.

(* ================================================================== *)
(** * The variant enumerator *)

Section EnumerateFacts.
Context {JS : Builtins}.

Lemma enumerate_spec_bounds (requested : list string) (texts : list (option string)) :
  forall i,
    Forall (fun task => i <= selectorIdx task < i + length texts)
           (enumerate_spec requested i texts).
Proof.
  induction texts as [|text rest IH]; intros i; simpl; [constructor|].
  assert (K : Forall (fun task => i <= selectorIdx task < i + S (length rest))
                     (enumerate_spec requested (S i) rest)).
  { eapply Forall_impl; [|apply IH]. simpl. intros task Ht. lia. }
  destruct text as [text|]; [|exact K].
  destruct (array_includes requested (toLowerCase text)); [|exact K].
  constructor; [simpl; lia | exact K].
Qed.

Lemma enumerate_spec_sorted (requested : list string) (texts : list (option string)) :
  forall i, StronglySorted lt (map selectorIdx (enumerate_spec requested i texts)).
Proof.
  induction texts as [|text rest IH]; intros i; simpl; [constructor|].
  destruct text as [text|]; [|apply IH].
  destruct (array_includes requested (toLowerCase text)); [|apply IH].
  simpl. constructor; [apply IH|].
  apply Forall_map. eapply Forall_impl; [|apply enumerate_spec_bounds].
  simpl. intros task Ht. lia.
Qed.

Lemma enumerate_spec_In (requested : list string) (texts : list (option string)) :
  forall i j name,
    In (mkPlatformTask j name) (enumerate_spec requested i texts) <->
    exists k text,
      j = i + k /\ nth_error texts k = Some (Some text) /\
      name = toLowerCase text /\ In name requested.
Proof.
  induction texts as [|text rest IH]; intros i j name; simpl.
  - split; [intros [] | intros (k & t & _ & H & _); destruct k; discriminate].
  - assert (Tail : In (mkPlatformTask j name) (enumerate_spec requested (S i) rest) <->
                   exists k t, j = i + S k /\ nth_error rest k = Some (Some t) /\
                               name = toLowerCase t /\ In name requested).
    { rewrite IH. split; intros (k & t & E & H); exists k, t; (split; [lia | exact H]). }
    assert (Later : (exists k t, j = i + S k /\ nth_error rest k = Some (Some t) /\
                                 name = toLowerCase t /\ In name requested) ->
                    exists k t, j = i + k /\ nth_error (text :: rest) k = Some (Some t) /\
                                name = toLowerCase t /\ In name requested).
    { intros (k & t & E & H). exists (S k), t. split; [exact E | exact H]. }
    destruct text as [text|].
    + destruct (array_includes requested (toLowerCase text)) eqn:Inc.
      * simpl. rewrite Tail. split.
        -- intros [E | H]; [|exact (Later H)].
           inversion E; subst. exists 0, text.
           repeat split; [lia | now apply array_includes_In].
        -- intros ([|k] & t & E & H & Hn & Hin).
           ++ left. simpl in H. inversion H; subst. f_equal. lia.
           ++ right. exists k, t. repeat split; assumption.
      * rewrite Tail. split; [exact Later|].
        intros ([|k] & t & E & H & Hn & Hin).
        -- simpl in H. inversion H; subst.
           apply array_includes_In in Hin. congruence.
        -- exists k, t. repeat split; assumption.
    + rewrite Tail. split; [exact Later|].
      intros ([|k] & t & E & H & Hn & Hin); [discriminate|].
      exists k, t. repeat split; assumption.
Qed.

Lemma enumerate_spec_undefined (requested : list string) (texts : list (option string)) :
  forall i k,
    nth_error texts k = Some None ->
    ~ In (i + k) (map selectorIdx (enumerate_spec requested i texts)).
Proof.
  induction texts as [|text rest IH]; intros i k H; [destruct k; discriminate|].
  assert (Far : forall j, j <= i ->
            ~ In j (map selectorIdx (enumerate_spec requested (S i) rest))).
  { intros j Hj K. apply in_map_iff in K as (task & E & K).
    pose proof (enumerate_spec_bounds requested rest (S i)) as B.
    rewrite Forall_forall in B. specialize (B _ K). lia. }
  destruct k as [|k]; simpl in H.
  - inversion H; subst. simpl. apply Far. lia.
  - specialize (IH (S i) k H). replace (S i + k) with (i + S k) in IH by lia.
    simpl. destruct text as [text|]; [|exact IH].
    destruct (array_includes requested (toLowerCase text)); [|exact IH].
    simpl. intros [E|K]; [lia | exact (IH K)].
Qed.
End EnumerateFacts.

Lemma StronglySorted_lt_NoDup (l : list nat) : StronglySorted lt l -> NoDup l.
Proof.
  induction 1 as [|x l _ IH Hx]; constructor; [|exact IH].
  intros K. rewrite Forall_forall in Hx. specialize (Hx _ K). lia.
Qed.

Section EnumeratorFacts.
Context {JS : Builtins} {World : Type} {PW : Playwright World}.

(** The loop of [#computePlatformTaskList] is the spec's enumeration of
    the texts that the page serves. *)
Lemma filterEntries_readEntries (requested : list string) (remaining : nat) :
  forall i acc (st : State World),
    MultiPlatform.filterEntries requested remaining i acc st =
    match readEntries remaining i st with
    | (Fulfilled texts, st') =>
        (Fulfilled (acc ++ enumerate_spec requested i texts), st')
    | (Rejected e, st') => (Rejected e, st')
    end.
Proof.
  induction remaining as [|remaining IH]; intros i acc st; simpl.
  - unfold ret. now rewrite app_nil_r.
  - destruct (textContent (Nth (Loc DL_PLATFORM_NAME_SELECTOR) i) st)
      as [[text|e] st1] eqn:T.
    2: { now rewrite !(bind_rejected _ _ _ _ _ T). }
    rewrite !(bind_fulfilled _ _ _ _ _ T).
    assert (Skip : forall acc',
              MultiPlatform.filterEntries requested remaining (S i) acc' st1 =
              match (texts <- readEntries remaining (S i) ;; ret (text :: texts)) st1 with
              | (Fulfilled texts, st') =>
                  (Fulfilled (acc' ++ enumerate_spec requested (S i) (tl texts)), st')
              | (Rejected e, st') => (Rejected e, st')
              end).
    { intros acc'. rewrite IH. unfold bind, ret.
      destruct (readEntries remaining (S i) st1) as [[texts|e] st2]; reflexivity. }
    destruct text as [text|]; simpl.
    + destruct (array_includes requested (toLowerCase text)) eqn:Inc;
        rewrite Skip; unfold bind, ret;
        destruct (readEntries remaining (S i) st1) as [[texts|e] st2];
        simpl; rewrite ?Inc, <- ?app_assoc; reflexivity.
    + rewrite Skip. unfold bind, ret.
      destruct (readEntries remaining (S i) st1) as [[texts|e] st2]; reflexivity.
Qed.

Lemma readEntries_length (remaining : nat) :
  forall i (st : State World) texts st',
    readEntries remaining i st = (Fulfilled texts, st') -> length texts = remaining.
Proof.
  induction remaining as [|remaining IH]; intros i st texts st' H; simpl in H.
  - inversion H; reflexivity.
  - inv_bind H; [|discriminate]. inv_bind Hk; [|discriminate].
    inversion Hk0; subst. simpl. f_equal. eapply IH; eassumption.
Qed.

Lemma isDropdownExists_open (timeoutMs : N) (st : State World) (w : World) :
  page_waitForSelector DL_PLATFORM_SELECTOR (Some timeoutMs) (world st) = (Fulfilled tt, w) ->
  MultiPlatform.isDropdownExists timeoutMs st =
    (Fulfilled true,
     mkState w (trace st ++ [EWaitForSelector DL_PLATFORM_SELECTOR (Some timeoutMs)])).
Proof.
  intros H. unfold MultiPlatform.isDropdownExists, catch, bind, waitForSelector, call, ret.
  now rewrite H.
Qed.

(** An open dropdown is left alone. *)
Lemma ensureDropdownExists_open (st : State World) (w : World) :
  page_waitForSelector DL_PLATFORM_SELECTOR (Some 10000%N) (world st) = (Fulfilled tt, w) ->
  MultiPlatform.ensureDropdownExists st =
    (Fulfilled tt,
     mkState w (trace st ++ [EWaitForSelector DL_PLATFORM_SELECTOR (Some 10000%N)])).
Proof.
  intros H. unfold MultiPlatform.ensureDropdownExists.
  rewrite (bind_fulfilled _ _ _ _ _ (isDropdownExists_open _ _ _ H)).
  reflexivity.
Qed.
End EnumeratorFacts.

(** C2. On an open dropdown for which the page counts [n] entries and
    serves the texts [texts], [#computePlatformTaskList] returns the tasks
    [(i, name)] of exactly those positions [i < n] whose lower-cased text
    [name] is equal to a member of the requested platforms, in ascending
    order of position: it is the spec's enumeration of [texts]. *)
Theorem computePlatformTaskList_enumerates
    {JS : Builtins} {World : Type} {PW : Playwright World}
    (options : CmdArgs) (st : State World) (w1 w2 : World) (n : nat)
    (texts : list (option string)) (st3 : State World) :
  page_waitForSelector DL_PLATFORM_SELECTOR (Some 10000%N) (world st) = (Fulfilled tt, w1) ->
  locator_count (Loc DL_PLATFORM_NAME_SELECTOR) w1 = (Fulfilled n, w2) ->
  readEntries n 0
    (mkState w2 (trace st ++ [EWaitForSelector DL_PLATFORM_SELECTOR (Some 10000%N);
                              ECount (Loc DL_PLATFORM_NAME_SELECTOR)])) =
    (Fulfilled texts, st3) ->
  exists tasks,
    MultiPlatform.computePlatformTaskList options st = (Fulfilled tasks, st3) /\
    length texts = n /\
    tasks = enumerate_spec (platform options) 0 texts /\
    (forall i name,
       In (mkPlatformTask i name) tasks <->
       i < n /\
       exists text, nth_error texts i = Some (Some text) /\
                    name = toLowerCase text /\ In name (platform options)) /\
    StronglySorted lt (map selectorIdx tasks).
Proof.
  intros Hopen Hcount Hread.
  exists (enumerate_spec (platform options) 0 texts).
  pose proof (readEntries_length _ _ _ _ _ Hread) as Hlen.
  repeat split.
  - unfold MultiPlatform.computePlatformTaskList.
    rewrite (bind_fulfilled _ _ _ _ _ (ensureDropdownExists_open _ _ Hopen)).
    unfold bind at 1, count, call. simpl world. rewrite Hcount.
    simpl trace. rewrite <- app_assoc. simpl app.
    rewrite filterEntries_readEntries, Hread. reflexivity.
  - exact Hlen.
  - apply enumerate_spec_In in H as (k & text & E & Hk & _). simpl in E. subst i.
    rewrite <- Hlen. apply nth_error_Some. congruence.
  - apply enumerate_spec_In in H as (k & text & E & Hk). simpl in E. subst i.
    exists text. exact Hk.
  - intros (_ & text & Hk). apply enumerate_spec_In. exists i, text.
    split; [reflexivity | exact Hk].
  - apply enumerate_spec_sorted.
Qed.

Lemma computePlatformTaskList_enumerates_witness :
  exists tasks,
    MultiPlatform.computePlatformTaskList (JS := AsciiBuiltins) (PW := SimPlaywright)
      (sim_options ["linux x64"; "macos"]) (sim_start sim_multi) =
      (Fulfilled tasks,
       mkState sim_multi
         [EWaitForSelector DL_PLATFORM_SELECTOR (Some 10000%N);
          ECount (Loc DL_PLATFORM_NAME_SELECTOR);
          ETextContent (Nth (Loc DL_PLATFORM_NAME_SELECTOR) 0);
          ETextContent (Nth (Loc DL_PLATFORM_NAME_SELECTOR) 1);
          ETextContent (Nth (Loc DL_PLATFORM_NAME_SELECTOR) 2);
          ETextContent (Nth (Loc DL_PLATFORM_NAME_SELECTOR) 3)]) /\
    length (sim_entries sim_multi) = 4 /\
    tasks = enumerate_spec (JS := AsciiBuiltins) ["linux x64"; "macos"] 0
              (sim_entries sim_multi) /\
    (forall i name,
       In (mkPlatformTask i name) tasks <->
       i < 4 /\
       exists text, nth_error (sim_entries sim_multi) i = Some (Some text) /\
                    name = string_lower text /\ In name ["linux x64"; "macos"]) /\
    StronglySorted lt (map selectorIdx tasks).
Proof.
  apply (computePlatformTaskList_enumerates (JS := AsciiBuiltins) (PW := SimPlaywright)
           (sim_options ["linux x64"; "macos"]) (sim_start sim_multi)
           sim_multi sim_multi 4 (sim_entries sim_multi)); reflexivity.
Defined.

(** The enumeration on the scripted page: "macos" occurs in the entry
    "macOS Intel" and is not taken for it. *)
Example enumerate_exact_member :
  fst (MultiPlatform.computePlatformTaskList (JS := AsciiBuiltins) (PW := SimPlaywright)
         (sim_options ["linux x64"; "macos"]) (sim_start sim_multi)) =
  Fulfilled [mkPlatformTask 1 "linux x64"].
Proof. reflexivity. Qed.

(* ================================================================== *)
(** * The download driver *)

Section DriverFacts.
Context {JS : Builtins} {World : Type} {PW : Playwright World}.

(** Both promises fulfilled: the driver goes on to the save step. *)
Lemma clickAndDl_joined dlName timeout selector outputDir (st : State World)
    rd rc left_first w d u :
  page_waitForEvent_with_click "download" (locator_of selector) (Some timeout) (world st) =
    (rd, rc, left_first, w) ->
  Promise_all2 rd rc left_first = Fulfilled (d, u) ->
  _clickAndDl dlName timeout selector outputDir st =
    (saveAs d (path_join outputDir (suggestedFilename d)) ;; delete d)
      (mkState w (trace st ++ [EWaitForEvent "download";
                               EClick (locator_of selector) (Some timeout)])).
Proof.
  intros H J.
  unfold _clickAndDl, catch, all_waitForEvent_click.
  unfold bind at 1 2. fold (locator_of selector). rewrite H, J. reflexivity.
Qed.

(** One of them rejected: the label is printed, the reason thrown again. *)
Lemma clickAndDl_failed dlName timeout selector outputDir (st : State World)
    rd rc left_first w err :
  page_waitForEvent_with_click "download" (locator_of selector) (Some timeout) (world st) =
    (rd, rc, left_first, w) ->
  Promise_all2 rd rc left_first = Rejected err ->
  _clickAndDl dlName timeout selector outputDir st =
    (Rejected err,
     mkState w (trace st ++ [EWaitForEvent "download";
                             EClick (locator_of selector) (Some timeout);
                             EConsoleError ("Failed on downloading " ++ dlName)%string])).
Proof.
  intros H J.
  unfold _clickAndDl, catch, all_waitForEvent_click.
  unfold bind at 1 2. fold (locator_of selector). rewrite H, J.
  unfold bind, console_error, emit, throw. simpl.
  now rewrite <- app_assoc.
Qed.

(** Whatever the outcome, the driver waits for the download and clicks
    its trigger once, before anything else. *)
Lemma clickAndDl_trace dlName timeout selector outputDir (st : State World) r st' :
  _clickAndDl dlName timeout selector outputDir st = (r, st') ->
  exists evs,
    trace st' = trace st ++ EWaitForEvent "download"
                  :: EClick (locator_of selector) (Some timeout) :: evs /\
    Forall afterClick evs.
Proof.
  destruct (page_waitForEvent_with_click "download" (locator_of selector)
              (Some timeout) (world st)) as [[[rd rc] lf] w] eqn:H.
  destruct (Promise_all2 rd rc lf) as [[d u]|err] eqn:J.
  - rewrite (clickAndDl_joined _ _ _ _ _ _ _ _ _ _ _ H J). intros K.
    assert (E : emits afterClick
                  (saveAs d (path_join outputDir (suggestedFilename d)) ;; delete d)).
    { unfold saveAs, delete. apply emits_bind.
      - now apply emits_call.
      - intros _. now apply emits_call. }
    destruct (E _ _ _ K) as (evs & Et & F). exists evs.
    rewrite Et. simpl. rewrite <- app_assoc. split; [reflexivity | exact F].
  - rewrite (clickAndDl_failed _ _ _ _ _ _ _ _ _ _ H J). intros K.
    inversion K; subst. eexists. split; [reflexivity|].
    repeat constructor.
Qed.
End DriverFacts.

(** C3. [_clickAndDl] awaits the wait for the download event and the
    click together.  When both are fulfilled it goes on to the save step,
    on the download that the event brought and under the file name that
    the server suggests.  When the wait or the click is rejected, it
    prints an error that carries the label, throws the reason again, and
    does nothing more: the trace ends with that message, with neither a
    save nor a release. *)
Theorem clickAndDl_join
    {JS : Builtins} {World : Type} {PW : Playwright World}
    (dlName : string) (timeout : N) (selector : string + Locator) (outputDir : string)
    (st : State World) (rd : result Download) (rc : result unit)
    (left_first : bool) (w : World) :
  page_waitForEvent_with_click "download" (locator_of selector) (Some timeout) (world st) =
    (rd, rc, left_first, w) ->
  let started :=
    trace st ++ [EWaitForEvent "download"; EClick (locator_of selector) (Some timeout)] in
  (forall d, rd = Fulfilled d -> rc = Fulfilled tt ->
     _clickAndDl dlName timeout selector outputDir st =
       (saveAs d (path_join outputDir (suggestedFilename d)) ;; delete d)
         (mkState w started)) /\
  ((exists e, rd = Rejected e) \/ (exists e, rc = Rejected e) ->
     exists err,
       (rd = Rejected err \/ rc = Rejected err) /\
       _clickAndDl dlName timeout selector outputDir st =
         (Rejected err,
          mkState w (started ++
                     [EConsoleError ("Failed on downloading " ++ dlName)%string]))).
Proof.
  intros H started. split.
  - intros d -> ->. exact (clickAndDl_joined _ _ _ _ _ _ _ _ _ d tt H eq_refl).
  - intros Hrej.
    assert (J : exists err, (rd = Rejected err \/ rc = Rejected err) /\
                            Promise_all2 rd rc left_first = Rejected err).
    { destruct rd as [d|ed], rc as [u|ec]; simpl.
      - destruct Hrej as [[e K]|[e K]]; discriminate.
      - exists ec. split; [now right | reflexivity].
      - exists ed. split; [now left | reflexivity].
      - destruct left_first; [exists ed | exists ec];
          (split; [auto | reflexivity]). }
    destruct J as (err & Hwho & J). exists err. split; [exact Hwho|].
    rewrite (clickAndDl_failed _ _ _ _ _ _ _ _ _ _ H J).
    unfold started. now rewrite <- app_assoc.
Qed.

Lemma clickAndDl_join_witness :
  let started :=
    [EWaitForEvent "download"; EClick (Loc DL_BTN_SELECTOR) (Some 180000%N)] in
  (forall d, Rejected (TimeoutError "waitForEvent") = Fulfilled d ->
     Rejected (TimeoutError "click") = Fulfilled tt ->
     _clickAndDl (JS := AsciiBuiltins) (PW := SimPlaywright)
       "-" 180000%N (inl DL_BTN_SELECTOR) "out" (sim_start sim_stuck) =
       (saveAs (PW := SimPlaywright) d
          (path_join (Builtins := AsciiBuiltins) "out" (suggestedFilename d)) ;;
        delete (PW := SimPlaywright) d)
         (mkState sim_stuck started)) /\
  ((exists e, Rejected (TimeoutError "waitForEvent") = Rejected (A := Download) e) \/
   (exists e, Rejected (TimeoutError "click") = Rejected (A := unit) e) ->
     exists err,
       (Rejected (TimeoutError "waitForEvent") = Rejected (A := Download) err \/
        Rejected (TimeoutError "click") = Rejected (A := unit) err) /\
       _clickAndDl (JS := AsciiBuiltins) (PW := SimPlaywright)
         "-" 180000%N (inl DL_BTN_SELECTOR) "out" (sim_start sim_stuck) =
         (Rejected err,
          mkState sim_stuck (started ++ [EConsoleError "Failed on downloading -"]))).
Proof.
  apply (clickAndDl_join (JS := AsciiBuiltins) (PW := SimPlaywright)
           "-" 180000%N (inl DL_BTN_SELECTOR) "out" (sim_start sim_stuck)
           (Rejected (TimeoutError "waitForEvent")) (Rejected (TimeoutError "click"))
           false sim_stuck).
  reflexivity.
Defined.

(** The driver on a button that does not answer. *)
Example clickAndDl_stuck :
  _clickAndDl (JS := AsciiBuiltins) (PW := SimPlaywright)
    "-" 180000%N (inl DL_BTN_SELECTOR) "out" (sim_start sim_stuck) =
  (Rejected (TimeoutError "click"),
   mkState sim_stuck
     [EWaitForEvent "download"; EClick (Loc DL_BTN_SELECTOR) (Some 180000%N);
      EConsoleError "Failed on downloading -"]).
Proof. reflexivity. Qed.

(** C6, as stated, fails: on a page whose download cannot be written, the
    driver saves and never releases the handle. *)
Lemma clickAndDl_unsaved_not_released :
  _clickAndDl (JS := AsciiBuiltins) (PW := SimPlaywright)
    "-" 180000%N (inl DL_BTN_SELECTOR) "out" (sim_start sim_unsaved) =
  (Rejected (TimeoutError "saveAs"),
   mkState sim_unsaved
     [EWaitForEvent "download"; EClick (Loc DL_BTN_SELECTOR) (Some 180000%N);
      ESaveAs (mkDownload 0 "ext.vsix") "out/ext.vsix"]) /\
  ~ releasesSaved
      (trace (snd (_clickAndDl (JS := AsciiBuiltins) (PW := SimPlaywright)
                     "-" 180000%N (inl DL_BTN_SELECTOR) "out" (sim_start sim_unsaved)))).
Proof.
  split; [reflexivity|].
  intros K. specialize (K (mkDownload 0 "ext.vsix") "out/ext.vsix").
  simpl in K.
  destruct K as [K|[K|[K|[]]]]; try discriminate.
  right; right; left; reflexivity.
Qed.

(** C6, amended. Once the download has started, [_clickAndDl] saves it
    under the suggested name; it releases the handle after a save that
    succeeded, and after a save that failed it throws the reason of the
    failure without releasing the handle. *)
Theorem clickAndDl_release_after_saved
    {JS : Builtins} {World : Type} {PW : Playwright World}
    (dlName : string) (timeout : N) (selector : string + Locator) (outputDir : string)
    (st : State World) (d : Download) (left_first : bool) (w w2 : World)
    (saved : result unit) :
  page_waitForEvent_with_click "download" (locator_of selector) (Some timeout) (world st) =
    (Fulfilled d, Fulfilled tt, left_first, w) ->
  let savePath := path_join outputDir (suggestedFilename d) in
  download_saveAs d savePath w = (saved, w2) ->
  let started :=
    trace st ++ [EWaitForEvent "download"; EClick (locator_of selector) (Some timeout)] in
  match saved with
  | Fulfilled _ =>
      _clickAndDl dlName timeout selector outputDir st =
        (fst (download_delete d w2),
         mkState (snd (download_delete d w2))
                 (started ++ [ESaveAs d savePath; EDelete d]))
  | Rejected e =>
      _clickAndDl dlName timeout selector outputDir st =
        (Rejected e, mkState w2 (started ++ [ESaveAs d savePath]))
  end.
Proof.
  intros H savePath Hs started.
  rewrite (clickAndDl_joined _ _ _ _ _ _ _ _ _ d tt H eq_refl).
  unfold bind, saveAs, delete, call. simpl world. fold savePath. rewrite Hs.
  destruct saved as [u|e]; [|reflexivity].
  simpl. destruct (download_delete d w2) as [r3 w3]. simpl.
  unfold started. now rewrite <- !app_assoc.
Qed.

Lemma clickAndDl_release_after_saved_witness :
  _clickAndDl (JS := AsciiBuiltins) (PW := SimPlaywright)
    "-" 180000%N (inl DL_BTN_SELECTOR) "out" (sim_start sim_single) =
  (Fulfilled tt,
   mkState sim_single
     [EWaitForEvent "download"; EClick (Loc DL_BTN_SELECTOR) (Some 180000%N);
      ESaveAs (mkDownload 0 "ext.vsix") "out/ext.vsix";
      EDelete (mkDownload 0 "ext.vsix")]).
Proof.
  apply (clickAndDl_release_after_saved (JS := AsciiBuiltins) (PW := SimPlaywright)
           "-" 180000%N (inl DL_BTN_SELECTOR) "out" (sim_start sim_single)
           (mkDownload 0 "ext.vsix") true sim_single sim_single (Fulfilled tt));
    reflexivity.
Defined.

(* ================================================================== *)
(** * The orchestrator *)

Section OrchestratorFacts.
Context {JS : Builtins} {World : Type} {PW : Playwright World}.

Lemma hasMultiplePlatforms_run (st : State World) (n : nat) (w : World) :
  locator_count (Loc DL_CHV_SELECTOR) (world st) = (Fulfilled n, w) ->
  _hasMultiplePlatforms st =
    (Fulfilled (Nat.eqb n 1), mkState w (trace st ++ [ECount (Loc DL_CHV_SELECTOR)])).
Proof.
  intros H. unfold _hasMultiplePlatforms, bind, count, call, ret. now rewrite H.
Qed.

Lemma hasSpecifiedPlatforms_satisfies (platforms : list string) (matchAll : bool)
    (st : State World) (text : option string) (w : World) :
  locator_textContent (Loc PLATFORM_CAP_SELECTOR) (world st) = (Fulfilled text, w) ->
  exists b,
    _hasSpecifiedPlatforms platforms matchAll st =
      (Fulfilled b,
       mkState w (trace st ++ [ETextContent (Loc PLATFORM_CAP_SELECTOR)])) /\
    (b = true <-> satisfiesPlatforms text platforms matchAll).
Proof.
  intros H.
  unfold _hasSpecifiedPlatforms, bind, textContent, call, ret. rewrite H.
  destruct text as [t|]; simpl.
  2: { exists false. split; [reflexivity|]. split; [discriminate | intros []]. }
  destruct (includes (toLocaleLowerCase t) "universal") eqn:U.
  - exists true. split; [reflexivity|]. split; [|reflexivity].
    intros _. left. now apply includes_spec.
  - apply includes_false in U.
    destruct matchAll; eexists; (split; [reflexivity|]).
    + rewrite forallb_forall, Forall_forall. split.
      * intros K. right. intros p Hp. apply includes_spec, K, Hp.
      * intros [K|K] p Hp; [contradiction | apply includes_spec, K, Hp].
    + rewrite existsb_exists, Exists_exists. split.
      * intros (p & Hp & K). right. exists p. split; [exact Hp|].
        now apply includes_spec.
      * intros [K|(p & Hp & K)]; [contradiction|]. exists p.
        split; [exact Hp | now apply includes_spec].
Qed.

Lemma bind_assoc_at {A B C : Type} (m : M World A) (f : A -> M World B)
    (g : B -> M World C) (st : State World) :
  bind (bind m f) g st = bind m (fun a => bind (f a) g) st.
Proof.
  unfold bind. destruct (m st) as [[a|e] st1]; reflexivity.
Qed.
End OrchestratorFacts.

(** C4. Once the page is loaded, has answered [n] for the count of
    chevrons and has served the text of its capability list, [dlExt] takes
    the single-build branch when [n] is not 1 and checks the requested
    platforms under the policy ALL there; it takes the multi-build branch
    when [n] is 1 and checks them under the policy ANY there.  In either
    branch an unsatisfied check ends the package with a warning and
    nothing more; a satisfied one leads to the one download of the single
    build, or to the enumeration of the builds. *)
Theorem dlExt_policy_per_branch
    {JS : Builtins} {World : Type} {PW : Playwright World}
    (ext : Extension) (options : CmdArgs) (st st1 : State World)
    (n : nat) (text : option string) (w2 w3 : World) :
  _navigateTo ext None st = (Fulfilled tt, st1) ->
  locator_count (Loc DL_CHV_SELECTOR) (world st1) = (Fulfilled n, w2) ->
  locator_textContent (Loc PLATFORM_CAP_SELECTOR) w2 = (Fulfilled text, w3) ->
  let probed :=
    mkState w3 (trace st1 ++ [ECount (Loc DL_CHV_SELECTOR);
                              ETextContent (Loc PLATFORM_CAP_SELECTOR)]) in
  let skipped msg :=
    (Fulfilled tt,
     mkState w3 (trace st1 ++ [ECount (Loc DL_CHV_SELECTOR);
                               ETextContent (Loc PLATFORM_CAP_SELECTOR);
                               EConsoleWarn msg])) in
  (n <> 1 ->
     (satisfiesPlatforms text (platform options) true ->
        dlExt ext options st =
          _clickAndDl "-" (timeout options) (inl DL_BTN_SELECTOR) (output options) probed) /\
     (~ satisfiesPlatforms text (platform options) true ->
        exists msg, dlExt ext options st = skipped msg)) /\
  (n = 1 ->
     (satisfiesPlatforms text (platform options) false ->
        dlExt ext options st =
          (tasks <- MultiPlatform.computePlatformTaskList options ;;
           bar <- bar_create (length tasks) ;;
           MultiPlatform.run (MultiPlatform.mk ext options tasks bar)) probed) /\
     (~ satisfiesPlatforms text (platform options) false ->
        exists msg, dlExt ext options st = skipped msg)).
Proof.
  intros Hnav Hcount Htext probed skipped.
  pose proof (hasMultiplePlatforms_run _ _ _ Hcount) as Hmulti.
  assert (Hprobe : forall matchAll, exists b,
            _hasSpecifiedPlatforms (platform options) matchAll
              (mkState w2 (trace st1 ++ [ECount (Loc DL_CHV_SELECTOR)])) =
              (Fulfilled b, probed) /\
            (b = true <-> satisfiesPlatforms text (platform options) matchAll)).
  { intros matchAll.
    destruct (hasSpecifiedPlatforms_satisfies (platform options) matchAll
                (mkState w2 (trace st1 ++ [ECount (Loc DL_CHV_SELECTOR)]))
                text w3 Htext) as (b & E & Hb).
    exists b. split; [|exact Hb]. rewrite E. unfold probed. simpl.
    now rewrite <- app_assoc. }
  unfold dlExt. rewrite (bind_fulfilled _ _ _ _ _ Hnav).
  rewrite (bind_fulfilled _ _ _ _ _ Hmulti).
  split; intros Hn.
  - apply Nat.eqb_neq in Hn. rewrite Hn.
    destruct (Hprobe true) as (b & E & Hb).
    unfold SinglePlatform.run. rewrite (bind_fulfilled _ _ _ _ _ E).
    split; intros Hsat.
    + apply Hb in Hsat. subst b. reflexivity.
    + destruct b; [exfalso; apply Hsat, Hb; reflexivity|].
      eexists. unfold skipped, probed. simpl.
      unfold console_warn, emit. simpl. rewrite <- app_assoc. reflexivity.
  - subst n. change (Nat.eqb 1 1) with true. cbv iota.
    destruct (Hprobe false) as (b & E & Hb).
    unfold MultiPlatform.init. rewrite bind_assoc_at.
    rewrite (bind_fulfilled _ _ _ _ _ E).
    split; intros Hsat.
    + apply Hb in Hsat. subst b. simpl negb. cbv iota.
      rewrite bind_assoc_at. unfold bind.
      destruct (MultiPlatform.computePlatformTaskList options probed)
        as [[tasks|e] sta]; [|reflexivity].
      destruct (bar_create (length tasks) sta) as [[bar|e] stb]; reflexivity.
    + destruct b; [exfalso; apply Hsat, Hb; reflexivity|].
      eexists. unfold skipped, probed. simpl.
      unfold bind, console_warn, emit, ret. simpl. rewrite <- app_assoc. reflexivity.
Qed.

Lemma dlExt_policy_per_branch_witness :
  dlExt (JS := AsciiBuiltins) (PW := SimPlaywright)
    (sim_ext "a.b") (sim_options ["windows x64"; "linux x64"])
    (sim_start sim_windows_only) =
  (tasks <- MultiPlatform.computePlatformTaskList (JS := AsciiBuiltins)
              (PW := SimPlaywright) (sim_options ["windows x64"; "linux x64"]) ;;
   bar <- bar_create (PW := SimPlaywright) (length tasks) ;;
   MultiPlatform.run (JS := AsciiBuiltins) (PW := SimPlaywright)
     (MultiPlatform.mk (sim_ext "a.b") (sim_options ["windows x64"; "linux x64"])
        tasks bar))
    (mkState sim_windows_only
       [EGoto (url (sim_ext "a.b")) None;
        EWaitForSelector DL_BTN_SELECTOR None;
        ECount (Loc DL_CHV_SELECTOR);
        ETextContent (Loc PLATFORM_CAP_SELECTOR)]).
Proof.
  refine (proj1 (proj2
    (dlExt_policy_per_branch (JS := AsciiBuiltins) (PW := SimPlaywright)
       (sim_ext "a.b") (sim_options ["windows x64"; "linux x64"])
       (sim_start sim_windows_only)
       (mkState sim_windows_only
          [EGoto (url (sim_ext "a.b")) None; EWaitForSelector DL_BTN_SELECTOR None])
       1 (Some "Works with Windows x64") sim_windows_only sim_windows_only
       eq_refl eq_refl eq_refl) eq_refl) _).
  right. apply Exists_cons_hd. apply includes_spec. reflexivity.
Defined.

(** The same request on a page with no dropdown and on one with a
    dropdown, both naming Windows x64 alone: ALL skips the first, ANY lets
    the second through to its one matching build. *)
Example dlExt_single_skips :
  dlExt (JS := AsciiBuiltins) (PW := SimPlaywright)
    (sim_ext "a.b") (sim_options ["windows x64"; "linux x64"])
    (sim_start sim_single) =
  (Fulfilled tt,
   mkState sim_single
     [EGoto (url (sim_ext "a.b")) None;
      EWaitForSelector DL_BTN_SELECTOR None;
      ECount (Loc DL_CHV_SELECTOR);
      ETextContent (Loc PLATFORM_CAP_SELECTOR);
      EConsoleWarn (String "010"
        ("Skipping a.b as it does not have the desired platform[s]" ++ String "010" ""))]).
Proof. reflexivity. Qed.

Example dlExt_multi_downloads :
  entryClicks
    (trace (snd (dlExt (JS := AsciiBuiltins) (PW := SimPlaywright)
                   (sim_ext "a.b") (sim_options ["windows x64"; "linux x64"])
                   (sim_start sim_windows_only)))) = [0].
Proof. reflexivity. Qed.

(* ================================================================== *)
(** * What the enumeration and the downloads leave in the trace *)

Ltac emits_step :=
  first
    [ apply emits_ret
    | apply emits_throw
    | apply emits_emit; exact I
    | apply emits_call; exact I
    | apply emits_bind; [|intros ?]
    | apply emits_catch; [|intros ?]
    | match goal with
      | |- emits _ (if ?b then _ else _) => destruct b
      | |- emits _ (match ?x with Some _ => _ | None => _ end) => destruct x
      end ].

Section TraceFacts.
Context {JS : Builtins} {World : Type} {PW : Playwright World}.

Lemma probeEvent_quiet (ev : Event) :
  probeEvent ev -> isWarning ev = false /\ isDownloadEvent ev = false.
Proof.
  intros H.
  destruct ev as [| | | | | |  |l [t|]| | | | | | | | | | | | |];
    simpl in *; try contradiction; try (split; reflexivity);
    destruct l; contradiction || (split; reflexivity).
Qed.

Lemma probeEvent_no_click (ev : Event) : probeEvent ev -> entryClicks [ev] = [].
Proof.
  intros H. destruct ev; simpl in *; try contradiction; try reflexivity.
  destruct l; [reflexivity | contradiction].
Qed.

Lemma hasSpecifiedPlatforms_emits (platforms : list string) (matchAll : bool) :
  emits (World := World) probeEvent (_hasSpecifiedPlatforms platforms matchAll).
Proof.
  unfold _hasSpecifiedPlatforms, textContent. repeat emits_step.
Qed.

Lemma isDropdownExists_emits (timeoutMs : N) :
  emits (World := World) probeEvent (MultiPlatform.isDropdownExists timeoutMs).
Proof.
  unfold MultiPlatform.isDropdownExists, waitForSelector. repeat emits_step.
Qed.

Lemma ensureDropdownExists_emits :
  emits (World := World) probeEvent MultiPlatform.ensureDropdownExists.
Proof.
  unfold MultiPlatform.ensureDropdownExists, MultiPlatform.assert.
  apply emits_bind; [apply isDropdownExists_emits | intros isOpen].
  destruct isOpen; simpl; [apply emits_ret|].
  unfold click, waitForSelector.
  apply emits_bind; [apply emits_call; exact I | intros _].
  apply emits_bind; [apply emits_call; exact I | intros _].
  apply emits_bind; [apply isDropdownExists_emits | intros again].
  destruct again; [apply emits_ret | apply emits_throw].
Qed.

Lemma filterEntries_emits (requested : list string) (remaining : nat) :
  forall i acc,
    emits (World := World) probeEvent
      (MultiPlatform.filterEntries requested remaining i acc).
Proof.
  induction remaining as [|remaining IH]; intros i acc; simpl.
  - apply emits_ret.
  - unfold textContent.
    apply emits_bind; [apply emits_call; exact I | intros text].
    destruct text as [text|]; simpl; [|apply IH].
    destruct (array_includes requested (toLowerCase text)); apply IH.
Qed.

Lemma computePlatformTaskList_emits (options : CmdArgs) :
  emits (World := World) probeEvent (MultiPlatform.computePlatformTaskList options).
Proof.
  unfold MultiPlatform.computePlatformTaskList, count.
  apply emits_bind; [apply ensureDropdownExists_emits | intros _].
  apply emits_bind; [apply emits_call; exact I | intros n].
  apply filterEntries_emits.
Qed.

Lemma bar_create_emits (total : nat) :
  emits (World := World) probeEvent (bar_create total).
Proof.
  intros st r st' H. unfold bar_create in H.
  destruct (multibar_create total (world st)) as [b w].
  inversion H; subst. exists [EBarCreate total].
  split; [reflexivity | repeat constructor].
Qed.

(** What [init] has done when it hands over an object. *)
Lemma init_inv (ext : Extension) (options : CmdArgs) (st st1 : State World)
    (this : MultiPlatform.t) :
  MultiPlatform.init ext options st = (Fulfilled (Some this), st1) ->
  exists sta stb tasks bar,
    _hasSpecifiedPlatforms (platform options) false st = (Fulfilled true, sta) /\
    MultiPlatform.computePlatformTaskList options sta = (Fulfilled tasks, stb) /\
    bar_create (length tasks) stb = (Fulfilled bar, st1) /\
    this = MultiPlatform.mk ext options tasks bar.
Proof.
  unfold MultiPlatform.init. intros H.
  inv_bind H; [|discriminate]. destruct a as [|]; simpl in Hk.
  - inv_bind Hk; [|discriminate]. inv_bind Hk0; [|discriminate].
    inversion Hk; subst. exists st0, st2, a, a0. repeat split; assumption.
  - inv_bind Hk; [|discriminate]. inversion Hk0.
Qed.

Lemma init_emits (ext : Extension) (options : CmdArgs) (st st1 : State World)
    (this : MultiPlatform.t) :
  MultiPlatform.init ext options st = (Fulfilled (Some this), st1) ->
  exists evs, trace st1 = trace st ++ evs /\ Forall probeEvent evs.
Proof.
  intros H. destruct (init_inv _ _ _ _ _ H) as (sta & stb & tasks & bar & H1 & H2 & H3 & _).
  destruct (hasSpecifiedPlatforms_emits _ _ _ _ _ H1) as (e1 & E1 & F1).
  destruct (computePlatformTaskList_emits _ _ _ _ H2) as (e2 & E2 & F2).
  destruct (bar_create_emits _ _ _ _ H3) as (e3 & E3 & F3).
  exists (e1 ++ e2 ++ e3). rewrite E3, E2, E1, <- !app_assoc.
  split; [reflexivity|].
  apply Forall_app; split; [exact F1|].
  apply Forall_app; split; [exact F2 | exact F3].
Qed.
End TraceFacts.

(** C5, as stated, fails: on a page whose dropdown lists no requested
    build, the enumeration is empty and the package ends with no warning
    at all. *)
Lemma dlExt_empty_enumeration_no_warning :
  let options := sim_options ["linux x64"] in
  let visited :=
    dlExt (JS := AsciiBuiltins) (PW := SimPlaywright)
      (sim_ext "a.b") options (sim_start sim_unlisted) in
  fst (MultiPlatform.computePlatformTaskList (JS := AsciiBuiltins) (PW := SimPlaywright)
         options (sim_start (sim_set_open true sim_unlisted))) = Fulfilled [] /\
  fst visited = Fulfilled tt /\
  existsb isWarning (trace (snd visited)) = false /\
  trace (snd visited) =
    [EGoto (url (sim_ext "a.b")) None;
     EWaitForSelector DL_BTN_SELECTOR None;
     ECount (Loc DL_CHV_SELECTOR);
     ETextContent (Loc PLATFORM_CAP_SELECTOR);
     EWaitForSelector DL_PLATFORM_SELECTOR (Some 10000%N);
     EClick (Loc DL_BTN_SELECTOR) None;
     EWaitForSelector DL_PLATFORM_SELECTOR None;
     EWaitForSelector DL_PLATFORM_SELECTOR (Some 10000%N);
     ECount (Loc DL_PLATFORM_NAME_SELECTOR);
     ETextContent (Nth (Loc DL_PLATFORM_NAME_SELECTOR) 0);
     ETextContent (Nth (Loc DL_PLATFORM_NAME_SELECTOR) 1);
     EBarCreate 0; EBarStop 0; EBarRemove 0].
Proof.
  intros options visited.
  split; [vm_compute; reflexivity|].
  split; [vm_compute; reflexivity|].
  split; vm_compute; reflexivity.
Qed.

(** C5, amended. When [init] hands over an object whose task list is
    empty, nothing it did was a warning or a part of a download, and
    [run] then only stops and removes the progress bar: the package ends
    normally, with no download click, no file saved, and no warning. *)
Theorem multi_empty_task_list_silent
    {JS : Builtins} {World : Type} {PW : Playwright World}
    (ext : Extension) (options : CmdArgs) (st st1 : State World)
    (this : MultiPlatform.t) :
  MultiPlatform.init ext options st = (Fulfilled (Some this), st1) ->
  MultiPlatform.platformTaskList this = [] ->
  (exists evs,
     trace st1 = trace st ++ evs /\
     Forall (fun ev => isWarning ev = false /\ isDownloadEvent ev = false) evs) /\
  MultiPlatform.run this st1 =
    (Fulfilled tt,
     mkState (world st1)
       (trace st1 ++ [EBarStop (MultiPlatform.progressBar this);
                      EBarRemove (MultiPlatform.progressBar this)])).
Proof.
  intros Hinit Hempty. split.
  - destruct (init_emits _ _ _ _ _ Hinit) as (evs & E & F).
    exists evs. split; [exact E|].
    eapply Forall_impl; [|exact F]. exact probeEvent_quiet.
  - unfold MultiPlatform.run. rewrite Hempty. simpl.
    unfold bind, ret, emit. simpl. now rewrite <- app_assoc.
Qed.

Lemma multi_empty_task_list_silent_witness :
  let st :=
    mkState sim_unlisted
      [EGoto (url (sim_ext "a.b")) None; EWaitForSelector DL_BTN_SELECTOR None;
       ECount (Loc DL_CHV_SELECTOR)] in
  let st1 :=
    snd (MultiPlatform.init (JS := AsciiBuiltins) (PW := SimPlaywright)
           (sim_ext "a.b") (sim_options ["linux x64"]) st) in
  let this := MultiPlatform.mk (sim_ext "a.b") (sim_options ["linux x64"]) [] 0 in
  (exists evs,
     trace st1 = trace st ++ evs /\
     Forall (fun ev => isWarning ev = false /\ isDownloadEvent ev = false) evs) /\
  MultiPlatform.run (JS := AsciiBuiltins) (PW := SimPlaywright) this st1 =
    (Fulfilled tt, mkState (world st1) (trace st1 ++ [EBarStop 0; EBarRemove 0])).
Proof.
  apply (multi_empty_task_list_silent (JS := AsciiBuiltins) (PW := SimPlaywright)
           (sim_ext "a.b") (sim_options ["linux x64"])); reflexivity.
Defined.

(* ================================================================== *)
(** * The positions that a run clicks *)

Lemma entryClicks_cons (ev : Event) (evs : list Event) :
  entryClicks (ev :: evs) = entryClicks [ev] ++ entryClicks evs.
Proof.
  destruct ev; try reflexivity.
  destruct l as [sel|[sel|l j] i]; try reflexivity.
  simpl. destruct (String.eqb sel DL_PLATFORM_SELECTOR); reflexivity.
Qed.

Lemma entryClicks_app (evs1 evs2 : list Event) :
  entryClicks (evs1 ++ evs2) = entryClicks evs1 ++ entryClicks evs2.
Proof.
  induction evs1 as [|ev evs1 IH]; [reflexivity|].
  rewrite <- app_comm_cons, entryClicks_cons, IH, (entryClicks_cons ev evs1).
  now rewrite app_assoc.
Qed.

Lemma entryClicks_none (P : Event -> Prop) (evs : list Event) :
  (forall ev, P ev -> entryClicks [ev] = []) -> Forall P evs -> entryClicks evs = [].
Proof.
  intros HP F. induction F as [|ev evs Hev _ IH]; [reflexivity|].
  now rewrite entryClicks_cons, (HP _ Hev), IH.
Qed.

Lemma afterClick_no_click (ev : Event) : afterClick ev -> entryClicks [ev] = [].
Proof. intros H. destruct ev; simpl in *; try contradiction; reflexivity. Qed.

Section ClickFacts.
Context {JS : Builtins} {World : Type} {PW : Playwright World}.

Lemma clicks_bind {A B : Type} (l1 l2 : list nat) (m : M World A) (f : A -> M World B) :
  clicks l1 m -> (forall a, clicks l2 (f a)) -> clicks (l1 ++ l2) (bind m f).
Proof.
  intros Hm Hf st r st' H.
  inv_bind H.
  - destruct (Hm _ _ _ Hm0) as (evs1 & E1 & C1). simpl in C1.
    destruct (Hf a _ _ _ Hk) as (evs2 & E2 & C2).
    exists (evs1 ++ evs2). rewrite E2, E1, app_assoc. split; [reflexivity|].
    rewrite entryClicks_app, C1.
    destruct r as [b|e0]; [now rewrite C2|].
    destruct C2 as [rest ->]. exists rest. now rewrite app_assoc.
  - subst r. destruct (Hm _ _ _ Hm0) as (evs1 & E1 & [rest ->]).
    exists evs1. split; [exact E1|]. exists (rest ++ l2). now rewrite app_assoc.
Qed.

Lemma clicks_of_emits {A : Type} (P : Event -> Prop) (m : M World A) :
  (forall ev, P ev -> entryClicks [ev] = []) -> emits P m -> clicks [] m.
Proof.
  intros HP Hm st r st' H. destruct (Hm _ _ _ H) as (evs & E & F).
  exists evs. split; [exact E|]. rewrite (entryClicks_none P evs HP F).
  destruct r; [reflexivity | now exists []].
Qed.

Lemma clickAndDl_clicks dlName timeout (i : nat) outputDir :
  clicks (World := World) [i]
    (_clickAndDl dlName timeout (inr (Nth (Loc DL_PLATFORM_SELECTOR) i)) outputDir).
Proof.
  intros st r st' H.
  destruct (clickAndDl_trace _ _ _ _ _ _ _ H) as (evs & E & F).
  eexists. split; [exact E|].
  assert (C : entryClicks
                (EWaitForEvent "download"
                 :: EClick (locator_of (inr (Nth (Loc DL_PLATFORM_SELECTOR) i)))
                      (Some timeout) :: evs) = [i]).
  { transitivity (i :: entryClicks evs); [reflexivity|].
    now rewrite (entryClicks_none afterClick evs afterClick_no_click F). }
  rewrite C. destruct r; [reflexivity | now exists []].
Qed.

Lemma runTasks_clicks (this : MultiPlatform.t) (tasks : list PlatformTask) :
  clicks (World := World) (map selectorIdx tasks) (MultiPlatform.runTasks this tasks).
Proof.
  induction tasks as [|task rest IH]; simpl.
  - apply (clicks_of_emits (fun _ => False)); [intros ev [] | apply emits_ret].
  - change (selectorIdx task :: map selectorIdx rest)
      with ([] ++ [] ++ [selectorIdx task] ++ [] ++ map selectorIdx rest).
    apply clicks_bind; [|intros _].
    { apply (clicks_of_emits (fun ev => entryClicks [ev] = [])); [auto|].
      now apply emits_emit. }
    apply clicks_bind; [|intros _].
    { exact (clicks_of_emits probeEvent _ probeEvent_no_click
               ensureDropdownExists_emits). }
    apply clicks_bind; [apply clickAndDl_clicks | intros _].
    apply clicks_bind; [|intros _; exact IH].
    apply (clicks_of_emits (fun ev => entryClicks [ev] = [])); [auto|].
    now apply emits_emit.
Qed.

Lemma run_clicks (this : MultiPlatform.t) :
  clicks (World := World) (map selectorIdx (MultiPlatform.platformTaskList this))
    (MultiPlatform.run this).
Proof.
  unfold MultiPlatform.run.
  rewrite <- (app_nil_r (map selectorIdx (MultiPlatform.platformTaskList this))).
  apply clicks_bind; [apply runTasks_clicks | intros _].
  apply (clicks_of_emits (fun ev => entryClicks [ev] = [])); [auto|].
  apply emits_bind; [|intros _]; now apply emits_emit.
Qed.

(** What [#computePlatformTaskList] has done when it returns. *)
Lemma computePlatformTaskList_inv (options : CmdArgs) (st st' : State World)
    (tasks : list PlatformTask) :
  MultiPlatform.computePlatformTaskList options st = (Fulfilled tasks, st') ->
  exists stc n w texts,
    MultiPlatform.ensureDropdownExists st = (Fulfilled tt, stc) /\
    locator_count (Loc DL_PLATFORM_NAME_SELECTOR) (world stc) = (Fulfilled n, w) /\
    readEntries n 0
      (mkState w (trace stc ++ [ECount (Loc DL_PLATFORM_NAME_SELECTOR)])) =
      (Fulfilled texts, st') /\
    tasks = enumerate_spec (platform options) 0 texts.
Proof.
  unfold MultiPlatform.computePlatformTaskList. intros H.
  inv_bind H; [|discriminate]. destruct a.
  inv_bind Hk; [|discriminate].
  unfold count, call in Hm0.
  destruct (locator_count (Loc DL_PLATFORM_NAME_SELECTOR) (world st0))
    as [rn w] eqn:Hc.
  inversion Hm0; subst. clear Hm0.
  rewrite filterEntries_readEntries in Hk0.
  destruct (readEntries a _) as [[texts|e] st2] eqn:Hr; [|discriminate].
  inversion Hk0; subst.
  exists st0, a, w, texts. repeat split; assumption.
Qed.
End ClickFacts.

(** C10. The loop of the enumeration never fails on an entry without a
    text and gives it no task.  The task list that [init] stores has
    strictly increasing positions, all below the number of entries that
    the page counted, none of them the position of an entry without a
    text; hence no position comes twice, and [run], fulfilled or
    rejected, clicks a first part of these positions, each one at most
    once. *)
Theorem taskList_positions_increasing
    {JS : Builtins} {World : Type} {PW : Playwright World}
    (ext : Extension) (options : CmdArgs) (st st1 : State World)
    (this : MultiPlatform.t) :
  MultiPlatform.init ext options st = (Fulfilled (Some this), st1) ->
  let positions := map selectorIdx (MultiPlatform.platformTaskList this) in
  (forall requested n (s s' : State World) texts,
     readEntries n 0 s = (Fulfilled texts, s') ->
     exists tasks,
       MultiPlatform.filterEntries requested n 0 [] s = (Fulfilled tasks, s') /\
       forall i, nth_error texts i = Some None -> ~ In i (map selectorIdx tasks)) /\
  StronglySorted lt positions /\
  NoDup positions /\
  (exists sta n w texts stb,
     locator_count (Loc DL_PLATFORM_NAME_SELECTOR) (world sta) = (Fulfilled n, w) /\
     readEntries n 0
       (mkState w (trace sta ++ [ECount (Loc DL_PLATFORM_NAME_SELECTOR)])) =
       (Fulfilled texts, stb) /\
     Forall (fun i => i < n) positions /\
     (forall i, nth_error texts i = Some None -> ~ In i positions)) /\
  (forall r st2,
     MultiPlatform.run this st1 = (r, st2) ->
     exists evs,
       trace st2 = trace st1 ++ evs /\
       (exists rest, positions = entryClicks evs ++ rest) /\
       NoDup (entryClicks evs)).
Proof.
  intros Hinit positions.
  destruct (init_inv _ _ _ _ _ Hinit) as (sta & stb & tasks & bar & _ & Hc & _ & ->).
  destruct (computePlatformTaskList_inv _ _ _ _ Hc)
    as (stc & n & w & texts & _ & Hn & Hr & ->).
  simpl in positions.
  assert (Hsorted : StronglySorted lt positions) by apply enumerate_spec_sorted.
  assert (Hnodup : NoDup positions) by now apply StronglySorted_lt_NoDup.
  split; [|split; [exact Hsorted | split; [exact Hnodup | split]]].
  - intros requested m s s' txts Hread.
    exists (enumerate_spec requested 0 txts). split.
    + now rewrite filterEntries_readEntries, Hread.
    + intros i Hi. exact (enumerate_spec_undefined requested txts 0 i Hi).
  - exists stc, n, w, texts, stb. repeat split; try assumption.
    + apply Forall_map.
      eapply Forall_impl; [|apply enumerate_spec_bounds].
      simpl. intros task Ht. rewrite <- (readEntries_length _ _ _ _ _ Hr). lia.
    + intros i Hi. exact (enumerate_spec_undefined (platform options) texts 0 i Hi).
  - intros r st2 Hrun.
    destruct (run_clicks _ _ _ _ Hrun) as (evs & E & C). simpl in C.
    fold positions in C.
    assert (P : exists rest, positions = entryClicks evs ++ rest).
    { destruct r; [exists []; now rewrite app_nil_r | exact C]. }
    exists evs. split; [exact E|]. split; [exact P|].
    destruct P as [rest P]. rewrite P in Hnodup.
    exact (NoDup_app_remove_r _ _ Hnodup).
Qed.

Lemma taskList_positions_increasing_witness :
  let options := sim_options ["windows x64"; "macos intel"] in
  let this :=
    MultiPlatform.mk (sim_ext "a.b") options
      [mkPlatformTask 0 "windows x64"; mkPlatformTask 3 "macos intel"] 0 in
  let st1 :=
    snd (MultiPlatform.init (JS := AsciiBuiltins) (PW := SimPlaywright)
           (sim_ext "a.b") options (sim_start sim_multi)) in
  StronglySorted lt [0; 3] /\
  NoDup [0; 3] /\
  (forall r st2,
     MultiPlatform.run (JS := AsciiBuiltins) (PW := SimPlaywright) this st1 = (r, st2) ->
     exists evs,
       trace st2 = trace st1 ++ evs /\
       (exists rest, [0; 3] = entryClicks evs ++ rest) /\
       NoDup (entryClicks evs)).
Proof.
  intros options this st1.
  pose proof (taskList_positions_increasing (JS := AsciiBuiltins) (PW := SimPlaywright)
                (sim_ext "a.b") options (sim_start sim_multi) st1 this eq_refl) as W.
  destruct W as (_ & Hsorted & Hnodup & _ & Hrun).
  exact (conj Hsorted (conj Hnodup Hrun)).
Defined.

(** The run on the scripted page: positions 0 and 3, once each. *)
Example run_clicks_each_once :
  entryClicks
    (trace (snd (dlExt (JS := AsciiBuiltins) (PW := SimPlaywright)
                   (sim_ext "a.b") (sim_options ["windows x64"; "macos intel"])
                   (sim_start sim_multi)))) = [0; 3].
Proof. vm_compute. reflexivity. Qed.

(* ================================================================== *)
(** * The loop over the extensions *)

Section LoopFacts.
Context {JS : Builtins} {World : Type} {PW : Playwright World}.

(** One round of the loop that goes through. *)
Lemma extensionsLoop_cons_inv (bar : SingleBar) (ext : Extension)
    (rest : list Extension) (options : CmdArgs) (st st1 : State World) :
  extensionsLoop bar (ext :: rest) options st = (Fulfilled tt, st1) ->
  exists sta,
    dlExt ext options
      (mkState (world st) (trace st ++ [EBarUpdate bar "extensions" (id ext)])) =
      (Fulfilled tt, sta) /\
    extensionsLoop bar rest options
      (mkState (world sta) (trace sta ++ [EBarIncrement bar "extensions" (id ext)])) =
      (Fulfilled tt, st1).
Proof.
  simpl. unfold bind at 1, emit at 1. simpl. unfold bind at 1, catch.
  destruct (dlExt ext options _) as [[[]|e] sta].
  - unfold bind at 1, emit at 1. simpl. intros H. exists sta. split; [reflexivity | exact H].
  - unfold bind, console_error, emit, throw. simpl. discriminate.
Qed.

Lemma extensionsLoop_cons_fulfilled (bar : SingleBar) (ext : Extension)
    (rest : list Extension) (options : CmdArgs) (st sta : State World) :
  dlExt ext options
    (mkState (world st) (trace st ++ [EBarUpdate bar "extensions" (id ext)])) =
    (Fulfilled tt, sta) ->
  extensionsLoop bar (ext :: rest) options st =
  extensionsLoop bar rest options
    (mkState (world sta) (trace sta ++ [EBarIncrement bar "extensions" (id ext)])).
Proof.
  intros H. simpl. unfold bind at 1, emit at 1. simpl. unfold bind at 1, catch.
  rewrite H. unfold bind at 1, emit at 1. reflexivity.
Qed.

Lemma extensionsLoop_cons_rejected (bar : SingleBar) (ext : Extension)
    (rest : list Extension) (options : CmdArgs) (st sta : State World) (e : JsError) :
  dlExt ext options
    (mkState (world st) (trace st ++ [EBarUpdate bar "extensions" (id ext)])) =
    (Rejected e, sta) ->
  extensionsLoop bar (ext :: rest) options st =
  (Rejected e,
   mkState (world sta)
     (trace sta ++ [EConsoleError (String "010" ("Error on " ++ id ext))])).
Proof.
  intros H. simpl. unfold bind at 1, emit at 1. simpl. unfold bind at 1, catch.
  rewrite H. reflexivity.
Qed.
End LoopFacts.

(** C7, as stated, fails: with two extensions of which the first cannot
    be downloaded, the whole run is rejected with the error of the first
    and the page of the second is never opened. *)
Lemma setupBrowserAndBegin_stops_at_first_error :
  let visited :=
    _setupBrowserAndBegin (JS := AsciiBuiltins) (PW := SimPlaywright)
      [sim_ext "a.b"; sim_ext "c.d"] (sim_options ["windows x64"])
      (sim_start sim_stuck) in
  fst visited = Rejected (TimeoutError "click") /\
  filter isGoto (trace (snd visited)) = [EGoto (url (sim_ext "a.b")) None] /\
  ~ In (EGoto (url (sim_ext "c.d")) None) (trace (snd visited)).
Proof.
  intros visited.
  split; [vm_compute; reflexivity|].
  split; [vm_compute; reflexivity|].
  vm_compute. intros K.
  repeat (destruct K as [K|K]; [discriminate|]). exact K.
Qed.

(** C7, amended. When the download of an extension is rejected, the loop
    prints the identifier of the extension and throws the error again:
    it ends there, rejected with that error, whatever extensions come
    after in the list; none of them is visited. *)
Theorem extensionsLoop_stops_at_error
    {JS : Builtins} {World : Type} {PW : Playwright World}
    (bar : SingleBar) (done : list Extension) (ext : Extension)
    (remaining : list Extension) (options : CmdArgs)
    (st st1 st2 : State World) (e : JsError) :
  extensionsLoop bar done options st = (Fulfilled tt, st1) ->
  dlExt ext options
    (mkState (world st1) (trace st1 ++ [EBarUpdate bar "extensions" (id ext)])) =
    (Rejected e, st2) ->
  extensionsLoop bar (done ++ ext :: remaining) options st =
    (Rejected e,
     mkState (world st2)
       (trace st2 ++ [EConsoleError (String "010" ("Error on " ++ id ext))])).
Proof.
  revert st. induction done as [|first done IH]; intros st Hdone Hfail.
  - inversion Hdone; subst. simpl app.
    exact (extensionsLoop_cons_rejected _ _ _ _ _ _ _ Hfail).
  - destruct (extensionsLoop_cons_inv _ _ _ _ _ _ Hdone) as (sta & Hfirst & Hrest).
    rewrite <- app_comm_cons.
    rewrite (extensionsLoop_cons_fulfilled _ _ _ _ _ _ Hfirst).
    exact (IH _ Hrest Hfail).
Qed.

Lemma extensionsLoop_stops_at_error_witness :
  extensionsLoop (JS := AsciiBuiltins) (PW := SimPlaywright) 0
    ([] ++ sim_ext "a.b" :: [sim_ext "c.d"]) (sim_options ["windows x64"])
    (sim_start sim_stuck) =
  (Rejected (TimeoutError "click"),
   mkState sim_stuck
     [EBarUpdate 0 "extensions" "a.b";
      EGoto (url (sim_ext "a.b")) None;
      EWaitForSelector DL_BTN_SELECTOR None;
      ECount (Loc DL_CHV_SELECTOR);
      ETextContent (Loc PLATFORM_CAP_SELECTOR);
      EWaitForEvent "download";
      EClick (Loc DL_BTN_SELECTOR) (Some 180000%N);
      EConsoleError "Failed on downloading -";
      EConsoleError (String "010" "Error on a.b")]).
Proof.
  apply (extensionsLoop_stops_at_error (JS := AsciiBuiltins) (PW := SimPlaywright)
           0 [] (sim_ext "a.b") [sim_ext "c.d"] (sim_options ["windows x64"])
           (sim_start sim_stuck) (sim_start sim_stuck)
           (mkState sim_stuck
              [EBarUpdate 0 "extensions" "a.b";
               EGoto (url (sim_ext "a.b")) None;
               EWaitForSelector DL_BTN_SELECTOR None;
               ECount (Loc DL_CHV_SELECTOR);
               ETextContent (Loc PLATFORM_CAP_SELECTOR);
               EWaitForEvent "download";
               EClick (Loc DL_BTN_SELECTOR) (Some 180000%N);
               EConsoleError "Failed on downloading -"])
           (TimeoutError "click")); reflexivity.
Defined.

(* ================================================================== *)
(** * The requested platforms *)

Lemma js_get_key (obj : list (string * string)) (key : string) :
  In key (Object_keys obj) -> exists v, js_get obj key = Some v.
Proof.
  induction obj as [|[k v] obj IH]; simpl; [intros []|].
  intros H. destruct (String.eqb k key) eqn:E; [now exists v|].
  destruct H as [H|H]; [|exact (IH H)].
  subst k. now rewrite String.eqb_refl in E.
Qed.

(** C8, as stated, fails: asked for the platform code "win32-x64", the
    program hands "windows x64" over to the probe and to the
    enumeration, which is the lower-cased display name of the platform
    and none of the platform codes. *)
Lemma parseCmdArgs_hands_over_names :
  _parseCmdArgs (JS := AsciiBuiltins) (sim_options ["win32-x64"]) =
    Fulfilled (sim_options ["windows x64"]) /\
  In "win32-x64" (Object_keys PLATFORMS) /\
  ~ In "windows x64" (Object_keys PLATFORMS).
Proof.
  split; [reflexivity|]. split.
  - left; reflexivity.
  - simpl. intros K.
    repeat (destruct K as [K|K]; [discriminate|]). exact K.
Qed.

(** C8, amended. For platform codes of the table, [_parseCmdArgs] replaces
    the requested codes, one for one and in their order, by the
    lower-cased display names that the table gives for them: the
    platforms that the probe and the enumeration receive are these names,
    as many as the codes requested, so at least one when at least one
    code is requested. *)
Theorem parseCmdArgs_platform_names
    {JS : Builtins} (argv : CmdArgs) :
  Forall (fun code => In code (Object_keys PLATFORMS)) (platform argv) ->
  exists names,
    _parseCmdArgs argv =
      Fulfilled (mkCmdArgs (input argv) (output argv) (timeout argv) names (debug argv)) /\
    Forall2 (fun code name =>
               exists display,
                 js_get PLATFORMS code = Some display /\
                 name = toLocaleLowerCase display)
            (platform argv) names /\
    length names = length (platform argv) /\
    (platform argv <> [] -> names <> []).
Proof.
  intros Hcodes.
  assert (Hmap : exists names,
            map_platform_names (platform argv) = Fulfilled names /\
            Forall2 (fun code name =>
                       exists display,
                         js_get PLATFORMS code = Some display /\
                         name = toLocaleLowerCase display)
                    (platform argv) names).
  { induction Hcodes as [|code codes Hcode _ IH].
    - exists []. split; [reflexivity | constructor].
    - destruct IH as (names & E & F).
      destruct (js_get_key PLATFORMS code Hcode) as [display Hd].
      exists (toLocaleLowerCase display :: names).
      cbn [map_platform_names]. rewrite Hd, E.
      split; [reflexivity|]. constructor; [|exact F].
      exists display. split; [exact Hd | reflexivity]. }
  destruct Hmap as (names & E & F). exists names.
  unfold _parseCmdArgs. rewrite E. split; [reflexivity|]. split; [exact F|].
  pose proof (Forall2_length F) as L. split; [now symmetry|].
  intros Hne ->. destruct (platform argv); [now apply Hne | discriminate].
Qed.

Lemma parseCmdArgs_platform_names_witness :
  exists names,
    _parseCmdArgs (JS := AsciiBuiltins) (sim_options ["linux-x64"; "web"]) =
      Fulfilled (mkCmdArgs "extensions.txt" "out" 180000%N names false) /\
    Forall2 (fun code name =>
               exists display,
                 js_get PLATFORMS code = Some display /\
                 name = string_lower display)
            ["linux-x64"; "web"] names /\
    length names = 2 /\
    (["linux-x64"; "web"] <> [] -> names <> []).
Proof.
  apply (parseCmdArgs_platform_names (JS := AsciiBuiltins)
           (sim_options ["linux-x64"; "web"])).
  repeat constructor; simpl; tauto.
Defined.

(* ================================================================== *)
(** * More on traces: marks *)

Section ObservesFacts.
Context {World : Type}.

Lemma emits_impl {A : Type} (P Q : Event -> Prop) (m : M World A) :
  (forall ev, P ev -> Q ev) -> emits P m -> emits Q m.
Proof.
  intros HPQ Hm st r st' H. destruct (Hm _ _ _ H) as (evs & E & F).
  exists evs. split; [exact E | eapply Forall_impl; eassumption].
Qed.

Lemma flat_map_silent {X : Type} (f : Event -> list X) (evs : list Event) :
  Forall (fun ev => f ev = []) evs -> flat_map f evs = [].
Proof.
  induction 1 as [|ev evs Hev _ IH]; [reflexivity|].
  simpl. now rewrite Hev, IH.
Qed.

Lemma observes_of_emits {A X : Type} (f : Event -> list X) (m : M World A) :
  emits (fun ev => f ev = []) m -> observes f [] m.
Proof.
  intros Hm st r st' H. destruct (Hm _ _ _ H) as (evs & E & F).
  exists evs. split; [exact E|]. rewrite (flat_map_silent f evs F).
  destruct r; [reflexivity | now exists []].
Qed.

Lemma observes_emit {X : Type} (f : Event -> list X) (ev : Event) :
  observes (World := World) f (f ev) (emit ev).
Proof.
  intros st r st' H. inversion H; subst. exists [ev].
  split; [reflexivity|]. simpl. apply app_nil_r.
Qed.

Lemma observes_call {A X : Type} (f : Event -> list X) (ev : Event)
    (h : World -> result A * World) :
  observes f (f ev) (call ev h).
Proof.
  intros st r st' H. unfold call in H.
  destruct (h (world st)) as [r0 w]. inversion H; subst. exists [ev].
  split; [reflexivity|]. simpl. rewrite app_nil_r.
  destruct r; [reflexivity | exists []; now rewrite app_nil_r].
Qed.

Lemma observes_bind {A B X : Type} (f : Event -> list X) (l1 l2 : list X)
    (m : M World A) (k : A -> M World B) :
  observes f l1 m -> (forall a, observes f l2 (k a)) -> observes f (l1 ++ l2) (bind m k).
Proof.
  intros Hm Hk st r st' H.
  inv_bind H.
  - destruct (Hm _ _ _ Hm0) as (evs1 & E1 & C1). simpl in C1.
    destruct (Hk a _ _ _ Hk0) as (evs2 & E2 & C2).
    exists (evs1 ++ evs2). rewrite E2, E1, app_assoc. split; [reflexivity|].
    rewrite flat_map_app, C1.
    destruct r as [b|e0]; [now rewrite C2|].
    destruct C2 as [rest ->]. exists rest. now rewrite app_assoc.
  - subst r. destruct (Hm _ _ _ Hm0) as (evs1 & E1 & [rest ->]).
    exists evs1. split; [exact E1|]. exists (rest ++ l2). now rewrite app_assoc.
Qed.

(** A handler that prints and throws again changes no mark. *)
Lemma observes_catch_rethrow {A X : Type} (f : Event -> list X) (l : list X)
    (m : M World A) (msg : JsError -> string) :
  (forall s, f (EConsoleError s) = []) ->
  observes f l m ->
  observes f l (catch m (fun err => emit (EConsoleError (msg err)) ;; throw err)).
Proof.
  intros Hsilent Hm st r st' H.
  destruct (catch_inv _ _ _ _ _ H) as [(a & H1 & ->)|(e & st1 & H1 & H2)].
  - exact (Hm _ _ _ H1).
  - destruct (Hm _ _ _ H1) as (evs & E & [rest ->]).
    unfold bind, emit, throw in H2. simpl in H2. inversion H2; subst.
    exists (evs ++ [EConsoleError (msg e)]). simpl.
    rewrite app_assoc, E. split; [reflexivity|].
    exists rest. rewrite flat_map_app. simpl. rewrite Hsilent. now rewrite !app_nil_r.
Qed.
End ObservesFacts.

(* ================================================================== *)
(** * The dropdown *)

(** X1. [#isDropdownExists] is never rejected: it makes one wait for the
    entries of the dropdown, bounded by its time-out, and answers [true]
    when that wait is fulfilled and [false] when it is rejected, whatever
    the reason. *)
Theorem isDropdownExists_never_rejects
    {World : Type} {PW : Playwright World} (timeoutMs : N) (st : State World) :
  let answer := page_waitForSelector DL_PLATFORM_SELECTOR (Some timeoutMs) (world st) in
  exists b,
    MultiPlatform.isDropdownExists timeoutMs st =
      (Fulfilled b,
       mkState (snd answer)
         (trace st ++ [EWaitForSelector DL_PLATFORM_SELECTOR (Some timeoutMs)])) /\
    (b = true <-> exists u, fst answer = Fulfilled u).
Proof.
  intros answer.
  unfold MultiPlatform.isDropdownExists, catch, bind, waitForSelector, call, ret.
  fold answer. destruct answer as [[u|e] w]; simpl.
  - exists true. split; [reflexivity|]. split; [now exists u | reflexivity].
  - exists false. split; [reflexivity|].
    split; [discriminate | intros [u K]; discriminate].
Qed.

(** X2. Twice in a row on a dropdown that is open, [#ensureDropdownExists]
    probes twice and clicks nothing. *)
Theorem ensureDropdownExists_twice_no_click
    {World : Type} {PW : Playwright World} (st : State World) (w1 w2 : World) :
  page_waitForSelector DL_PLATFORM_SELECTOR (Some 10000%N) (world st) = (Fulfilled tt, w1) ->
  page_waitForSelector DL_PLATFORM_SELECTOR (Some 10000%N) w1 = (Fulfilled tt, w2) ->
  (MultiPlatform.ensureDropdownExists ;; MultiPlatform.ensureDropdownExists) st =
    (Fulfilled tt,
     mkState w2
       (trace st ++ [EWaitForSelector DL_PLATFORM_SELECTOR (Some 10000%N);
                     EWaitForSelector DL_PLATFORM_SELECTOR (Some 10000%N)])).
Proof.
  intros H1 H2.
  rewrite (bind_fulfilled _ _ _ _ _ (ensureDropdownExists_open _ _ H1)).
  rewrite (ensureDropdownExists_open
             (mkState w1 (trace st ++ [EWaitForSelector DL_PLATFORM_SELECTOR
                                         (Some 10000%N)])) w2 H2).
  simpl. now rewrite <- app_assoc.
Qed.

Lemma ensureDropdownExists_twice_no_click_witness :
  (MultiPlatform.ensureDropdownExists (PW := SimPlaywright) ;;
   MultiPlatform.ensureDropdownExists (PW := SimPlaywright)) (sim_start sim_multi) =
    (Fulfilled tt,
     mkState sim_multi
       [EWaitForSelector DL_PLATFORM_SELECTOR (Some 10000%N);
        EWaitForSelector DL_PLATFORM_SELECTOR (Some 10000%N)]).
Proof.
  apply (ensureDropdownExists_twice_no_click (PW := SimPlaywright)
           (sim_start sim_multi) sim_multi sim_multi); reflexivity.
Defined.

Section DropdownFacts.
Context {World : Type} {PW : Playwright World}.

(** The four ways through [#ensureDropdownExists] when the first probe
    does not see the dropdown. *)
Lemma ensureDropdownExists_closed (st : State World) (e1 : JsError) (w1 : World) :
  page_waitForSelector DL_PLATFORM_SELECTOR (Some 10000%N) (world st) = (Rejected e1, w1) ->
  let probe := EWaitForSelector DL_PLATFORM_SELECTOR (Some 10000%N) in
  let press := EClick (Loc DL_BTN_SELECTOR) None in
  let await := EWaitForSelector DL_PLATFORM_SELECTOR None in
  MultiPlatform.ensureDropdownExists st =
    match locator_click (Loc DL_BTN_SELECTOR) None w1 with
    | (Rejected e, w2) => (Rejected e, mkState w2 (trace st ++ [probe; press]))
    | (Fulfilled _, w2) =>
        match page_waitForSelector DL_PLATFORM_SELECTOR None w2 with
        | (Rejected e, w3) => (Rejected e, mkState w3 (trace st ++ [probe; press; await]))
        | (Fulfilled _, w3) =>
            match page_waitForSelector DL_PLATFORM_SELECTOR (Some 10000%N) w3 with
            | (Rejected _, w4) =>
                (Rejected AssertionError,
                 mkState w4 (trace st ++ [probe; press; await; probe]))
            | (Fulfilled _, w4) =>
                (Fulfilled tt, mkState w4 (trace st ++ [probe; press; await; probe]))
            end
        end
    end.
Proof.
  intros H probe press await.
  unfold MultiPlatform.ensureDropdownExists, MultiPlatform.isDropdownExists,
    MultiPlatform.assert, catch, bind, click, waitForSelector, call, ret, throw.
  rewrite H. simpl.
  destruct (locator_click (Loc DL_BTN_SELECTOR) None w1) as [[u|e] w2]; simpl;
    [|now rewrite <- app_assoc].
  destruct (page_waitForSelector DL_PLATFORM_SELECTOR None w2) as [[u'|e] w3]; simpl;
    [|now rewrite <- !app_assoc].
  destruct (page_waitForSelector DL_PLATFORM_SELECTOR (Some 10000%N) w3)
    as [[u''|e] w4]; simpl; now rewrite <- !app_assoc.
Qed.
End DropdownFacts.

(** X3. When [#ensureDropdownExists] is fulfilled, the last thing it did
    was a probe that saw the dropdown; it either did nothing else, or it
    first clicked the download button once and waited for the entries. *)
Theorem ensureDropdownExists_fulfilled_seen
    {World : Type} {PW : Playwright World} (st st' : State World) :
  MultiPlatform.ensureDropdownExists st = (Fulfilled tt, st') ->
  let probe := EWaitForSelector DL_PLATFORM_SELECTOR (Some 10000%N) in
  (exists w,
     page_waitForSelector DL_PLATFORM_SELECTOR (Some 10000%N) w =
       (Fulfilled tt, world st')) /\
  (trace st' = trace st ++ [probe] \/
   trace st' = trace st ++ [probe; EClick (Loc DL_BTN_SELECTOR) None;
                            EWaitForSelector DL_PLATFORM_SELECTOR None; probe]).
Proof.
  intros H probe.
  destruct (page_waitForSelector DL_PLATFORM_SELECTOR (Some 10000%N) (world st))
    as [[[]|e1] w1] eqn:H1.
  - rewrite (ensureDropdownExists_open _ _ H1) in H. inversion H; subst.
    split; [exists (world st); exact H1 | left; reflexivity].
  - rewrite (ensureDropdownExists_closed _ _ _ H1) in H.
    destruct (locator_click (Loc DL_BTN_SELECTOR) None w1) as [[u|e] w2];
      [|discriminate].
    destruct (page_waitForSelector DL_PLATFORM_SELECTOR None w2) as [[u'|e] w3];
      [|discriminate].
    destruct (page_waitForSelector DL_PLATFORM_SELECTOR (Some 10000%N) w3)
      as [[[]|e] w4] eqn:H4; [|discriminate].
    inversion H; subst. split; [exists w3; exact H4 | right; reflexivity].
Qed.

Lemma ensureDropdownExists_fulfilled_seen_witness :
  let st' :=
    mkState (sim_set_open true sim_windows_only)
      [EWaitForSelector DL_PLATFORM_SELECTOR (Some 10000%N);
       EClick (Loc DL_BTN_SELECTOR) None;
       EWaitForSelector DL_PLATFORM_SELECTOR None;
       EWaitForSelector DL_PLATFORM_SELECTOR (Some 10000%N)] in
  (exists w,
     page_waitForSelector (Playwright := SimPlaywright)
       DL_PLATFORM_SELECTOR (Some 10000%N) w = (Fulfilled tt, world st')) /\
  (trace st' = [] ++ [EWaitForSelector DL_PLATFORM_SELECTOR (Some 10000%N)] \/
   trace st' = [] ++ [EWaitForSelector DL_PLATFORM_SELECTOR (Some 10000%N);
                      EClick (Loc DL_BTN_SELECTOR) None;
                      EWaitForSelector DL_PLATFORM_SELECTOR None;
                      EWaitForSelector DL_PLATFORM_SELECTOR (Some 10000%N)]).
Proof.
  apply (ensureDropdownExists_fulfilled_seen (PW := SimPlaywright)
           (sim_start sim_windows_only)).
  reflexivity.
Defined.



(* ================================================================== *)
(** * What the visit of a package leaves in the trace *)

Ltac visit_step :=
  first
    [ apply emits_ret
    | apply emits_throw
    | apply emits_emit; first [exact I | reflexivity]
    | apply emits_call; first [exact I | reflexivity]
    | apply emits_bind; [|intros ?]
    | apply emits_catch; [|intros ?] ].

Section VisitFacts.
Context {JS : Builtins} {World : Type} {PW : Playwright World}.

Lemma probeEvent_visit (dir : string) (ev : Event) :
  probeEvent ev -> visitEvent dir ev.
Proof. intros H. destruct ev; simpl in *; try contradiction; exact I. Qed.

Lemma probeEvent_no_step (ev : Event) : probeEvent ev -> step ev = [].
Proof.
  intros H. destruct ev as [| | | | | | |l t| | | | | | | | | | | | |];
    simpl in *; try contradiction; try reflexivity.
  destruct l; [reflexivity | contradiction].
Qed.

Lemma visitEvent_no_milestone (dir : string) (ev : Event) :
  visitEvent dir ev -> milestone ev = [].
Proof. intros H. destruct ev; simpl in *; try contradiction; reflexivity. Qed.

Lemma all_waitForEvent_click_emits (P : Event -> Prop) name l timeoutMs :
  P (EWaitForEvent name) -> P (EClick l timeoutMs) ->
  emits (World := World) P (all_waitForEvent_click name l timeoutMs).
Proof.
  intros H1 H2 st r st' H. unfold all_waitForEvent_click in H.
  destruct (page_waitForEvent_with_click name l timeoutMs (world st))
    as [[[rd rc] lf] w].
  inversion H; subst. eexists. split; [reflexivity|].
  repeat constructor; assumption.
Qed.

Lemma clickAndDl_emits_visit dlName timeout selector outputDir :
  emits (World := World) (visitEvent outputDir)
    (_clickAndDl dlName timeout selector outputDir).
Proof.
  unfold _clickAndDl, console_error, saveAs, delete.
  apply emits_bind; [|intros d; repeat visit_step].
  apply emits_catch; [|intros e; repeat visit_step].
  apply emits_bind; [|intros x; apply emits_ret].
  apply all_waitForEvent_click_emits; exact I.
Qed.

Lemma single_run_emits_visit (options : CmdArgs) (ext : Extension) :
  emits (World := World) (visitEvent (output options)) (SinglePlatform.run options ext).
Proof.
  unfold SinglePlatform.run, console_warn.
  apply emits_bind.
  - apply (emits_impl probeEvent); [apply probeEvent_visit|].
    apply hasSpecifiedPlatforms_emits.
  - intros ok. destruct ok; simpl; [apply clickAndDl_emits_visit | repeat visit_step].
Qed.

Lemma init_emits_visit (dir : string) (ext : Extension) (options : CmdArgs) :
  emits (World := World) (visitEvent dir) (MultiPlatform.init ext options).
Proof.
  unfold MultiPlatform.init, console_warn.
  apply emits_bind.
  - apply (emits_impl probeEvent); [apply probeEvent_visit|].
    apply hasSpecifiedPlatforms_emits.
  - intros ok. destruct ok; simpl; [|repeat visit_step].
    apply emits_bind.
    + apply (emits_impl probeEvent); [apply probeEvent_visit|].
      apply computePlatformTaskList_emits.
    + intros tasks. apply emits_bind; [|intros bar; apply emits_ret].
      apply (emits_impl probeEvent); [apply probeEvent_visit|].
      apply bar_create_emits.
Qed.

Lemma runTasks_emits_visit (this : MultiPlatform.t) (tasks : list PlatformTask) :
  emits (World := World) (visitEvent (output (MultiPlatform._options this)))
    (MultiPlatform.runTasks this tasks).
Proof.
  induction tasks as [|task rest IH]; simpl; [apply emits_ret|].
  apply emits_bind; [apply emits_emit; exact I | intros _].
  apply emits_bind; [|intros _].
  { apply (emits_impl probeEvent); [apply probeEvent_visit|].
    apply ensureDropdownExists_emits. }
  apply emits_bind; [apply clickAndDl_emits_visit | intros _].
  apply emits_bind; [apply emits_emit; exact I | intros _; exact IH].
Qed.

Lemma run_emits_visit (this : MultiPlatform.t) :
  emits (World := World) (visitEvent (output (MultiPlatform._options this)))
    (MultiPlatform.run this).
Proof.
  unfold MultiPlatform.run.
  apply emits_bind; [apply runTasks_emits_visit | intros _].
  repeat visit_step.
Qed.

Lemma init_options (ext : Extension) (options : CmdArgs) (st st1 : State World)
    (this : MultiPlatform.t) :
  MultiPlatform.init ext options st = (Fulfilled (Some this), st1) ->
  MultiPlatform._ext this = ext /\ MultiPlatform._options this = options.
Proof.
  intros H. destruct (init_inv _ _ _ _ _ H) as (sta & stb & tasks & bar & _ & _ & _ & ->).
  split; reflexivity.
Qed.

(** From the moment its page is asked for, a package only leaves events
    of its own visit. *)
Lemma dlExt_trace (ext : Extension) (options : CmdArgs) (st st' : State World)
    (r : result unit) :
  dlExt ext options st = (r, st') ->
  exists evs,
    trace st' = trace st ++ EGoto (url ext) None :: evs /\
    Forall (visitEvent (output options)) evs.
Proof.
  unfold dlExt, _navigateTo. rewrite bind_assoc_at.
  unfold bind at 1, goto at 1, call.
  destruct (page_goto (url ext) None (world st)) as [[[]|e] w].
  2: { intros H. inversion H; subst. exists []. split; [reflexivity | constructor]. }
  intros H.
  assert (E : emits (visitEvent (output options))
                (waitForSelector DL_BTN_SELECTOR None ;;
                 multi <- _hasMultiplePlatforms ;;
                 (if multi
                  then x <- MultiPlatform.init ext options ;;
                       match x with
                       | Some x => MultiPlatform.run x
                       | None => ret tt
                       end
                  else SinglePlatform.run options ext))).
  { unfold waitForSelector, _hasMultiplePlatforms, count.
    apply emits_bind; [apply emits_call; exact I | intros _].
    apply emits_bind; [repeat visit_step | intros multi].
    destruct multi; [|apply single_run_emits_visit].
    intros s r0 s' K. inv_bind K.
    - destruct (init_emits_visit (output options) _ _ _ _ _ Hm) as (e1 & E1 & F1).
      destruct a as [this|].
      + destruct (init_options _ _ _ _ _ Hm) as [_ Ho].
        destruct (run_emits_visit this _ _ _ Hk) as (e2 & E2 & F2).
        rewrite Ho in F2. exists (e1 ++ e2). rewrite E2, E1, app_assoc.
        split; [reflexivity | now apply Forall_app].
      + inversion Hk; subst. exists e1. split; [exact E1 | exact F1].
    - subst. exact (init_emits_visit (output options) _ _ _ _ _ Hm). }
  destruct (E _ _ _ H) as (evs & Et & F). exists evs.
  rewrite Et. simpl. rewrite <- app_assoc. split; [reflexivity | exact F].
Qed.
End VisitFacts.

Section StepFacts.
Context {JS : Builtins} {World : Type} {PW : Playwright World}.

(** The steps of one download: the click when it is on an entry of the
    dropdown, then the save, then the release. *)
Lemma clickAndDl_steps dlName timeout selector outputDir :
  observes (World := World) step
    (step (EClick (locator_of selector) (Some timeout)) ++ [Saved; Released])
    (_clickAndDl dlName timeout selector outputDir).
Proof.
  intros st r st' H.
  destruct (page_waitForEvent_with_click "download" (locator_of selector)
              (Some timeout) (world st)) as [[[rd rc] lf] w] eqn:Hj.
  destruct (Promise_all2 rd rc lf) as [[d u]|err] eqn:J.
  - rewrite (clickAndDl_joined _ _ _ _ _ _ _ _ _ _ _ Hj J) in H.
    assert (O : observes (World := World) step ([Saved] ++ [Released])
                  (saveAs d (path_join outputDir (suggestedFilename d)) ;; delete d)).
    { unfold saveAs, delete. apply observes_bind.
      - exact (observes_call step (ESaveAs _ _) _).
      - intros _. exact (observes_call step (EDelete _) _). }
    destruct (O _ _ _ H) as (evs & E & C). simpl trace in E.
    exists ([EWaitForEvent "download"; EClick (locator_of selector) (Some timeout)]
            ++ evs).
    rewrite E, <- app_assoc. split; [reflexivity|].
    assert (K : flat_map step
                  [EWaitForEvent "download";
                   EClick (locator_of selector) (Some timeout)] =
                step (EClick (locator_of selector) (Some timeout))).
    { unfold flat_map. change (step (EWaitForEvent "download")) with (@nil Step).
      rewrite app_nil_r. reflexivity. }
    rewrite flat_map_app, K.
    destruct r; [now rewrite C|].
    destruct C as [rest C]. exists rest. rewrite <- app_assoc. now rewrite <- C.
  - rewrite (clickAndDl_failed _ _ _ _ _ _ _ _ _ _ Hj J) in H.
    inversion H; subst. eexists. split; [reflexivity|].
    exists [Saved; Released]. unfold flat_map.
    change (step (EWaitForEvent "download")) with (@nil Step).
    change (step (EConsoleError ("Failed on downloading " ++ dlName)%string))
      with (@nil Step).
    now rewrite !app_nil_r.
Qed.

Lemma runTasks_steps (this : MultiPlatform.t) (tasks : list PlatformTask) :
  observes (World := World) step (taskSteps tasks) (MultiPlatform.runTasks this tasks).
Proof.
  induction tasks as [|task rest IH]; cbn [MultiPlatform.runTasks].
  - apply observes_of_emits, emits_ret.
  - change (taskSteps (task :: rest))
      with ([] ++ [] ++ [Clicked (selectorIdx task); Saved; Released]
            ++ [Reported (extName task)] ++ taskSteps rest).
    apply observes_bind; [apply (observes_emit step) | intros _].
    apply observes_bind; [|intros _].
    { apply observes_of_emits.
      exact (emits_impl _ _ _ probeEvent_no_step ensureDropdownExists_emits). }
    apply observes_bind; [|intros _].
    { exact (clickAndDl_steps (extName task) (timeout (MultiPlatform._options this))
               (inr (Nth (Loc DL_PLATFORM_SELECTOR) (selectorIdx task)))
               (output (MultiPlatform._options this))). }
    apply observes_bind; [apply (observes_emit step) | intros _; exact IH].
Qed.

Lemma run_steps (this : MultiPlatform.t) :
  observes (World := World) step
    (taskSteps (MultiPlatform.platformTaskList this) ++ [Stopped])
    (MultiPlatform.run this).
Proof.
  unfold MultiPlatform.run.
  apply observes_bind; [apply runTasks_steps | intros _].
  change [Stopped] with ([Stopped] ++ @nil Step).
  apply observes_bind; [apply (observes_emit step) | intros _].
  apply (observes_emit step).
Qed.
End StepFacts.

(** X5. Whatever becomes of it, [MultiPlatform.init] only probes the
    page (waits, counts, reads of texts, the click that opens the
    dropdown, the creation of the progress bar) or warns: it starts no
    download, clicks no entry of the dropdown and saves nothing. *)
Theorem init_probes_or_warns
    {JS : Builtins} {World : Type} {PW : Playwright World}
    (ext : Extension) (options : CmdArgs) (st st' : State World)
    (r : result (option MultiPlatform.t)) :
  MultiPlatform.init ext options st = (r, st') ->
  exists evs,
    trace st' = trace st ++ evs /\
    Forall (fun ev => probeEvent ev \/ isWarning ev = true) evs /\
    Forall (fun ev => isDownloadEvent ev = false) evs.
Proof.
  intros H.
  assert (E : emits (fun ev => probeEvent ev \/ isWarning ev = true)
                (MultiPlatform.init ext options)).
  { unfold MultiPlatform.init, console_warn.
    apply emits_bind.
    - apply (emits_impl probeEvent); [now left|]. apply hasSpecifiedPlatforms_emits.
    - intros ok. destruct ok; simpl.
      + apply emits_bind.
        * apply (emits_impl probeEvent); [now left|].
          apply computePlatformTaskList_emits.
        * intros tasks. apply emits_bind; [|intros bar; apply emits_ret].
          apply (emits_impl probeEvent); [now left|]. apply bar_create_emits.
      + apply emits_bind; [|intros _; apply emits_ret].
        apply emits_emit. now right. }
  destruct (E _ _ _ H) as (evs & Et & F). exists evs.
  split; [exact Et|]. split; [exact F|].
  eapply Forall_impl; [|exact F].
  intros ev [Hp|Hw]; [exact (proj2 (probeEvent_quiet ev Hp))|].
  destruct ev; try discriminate; reflexivity.
Qed.

Lemma init_probes_or_warns_witness :
  exists evs,
    trace (snd (MultiPlatform.init (JS := AsciiBuiltins) (PW := SimPlaywright)
                  (sim_ext "a.b") (sim_options ["linux x64"]) (sim_start sim_closed))) =
      [] ++ evs /\
    Forall (fun ev => probeEvent ev \/ isWarning ev = true) evs /\
    Forall (fun ev => isDownloadEvent ev = false) evs.
Proof.
  apply (init_probes_or_warns (JS := AsciiBuiltins) (PW := SimPlaywright)
           (sim_ext "a.b") (sim_options ["linux x64"]) (sim_start sim_closed)
           _ (Fulfilled None)).
  reflexivity.
Defined.

(** X6. [MultiPlatform.run] goes through its tasks in their order and
    does, for each, a click on the entry of the task, a save, a release
    and an increment of the progress bar under the name of the task; it
    stops the bar after the last one.  A run that is rejected has done a
    first part of these steps and no other. *)
Theorem run_steps_in_order
    {JS : Builtins} {World : Type} {PW : Playwright World}
    (this : MultiPlatform.t) (st st' : State World) (r : result unit) :
  MultiPlatform.run this st = (r, st') ->
  let planned := taskSteps (MultiPlatform.platformTaskList this) ++ [Stopped] in
  exists evs,
    trace st' = trace st ++ evs /\
    match r with
    | Fulfilled _ => flat_map step evs = planned
    | Rejected _ => exists rest, planned = flat_map step evs ++ rest
    end.
Proof. intros H planned. exact (run_steps this st r st' H). Qed.

Lemma run_steps_in_order_witness :
  let this :=
    MultiPlatform.mk (sim_ext "a.b") (sim_options ["windows x64"; "macos intel"])
      [mkPlatformTask 0 "windows x64"; mkPlatformTask 3 "macos intel"] 0 in
  let visited :=
    MultiPlatform.run (JS := AsciiBuiltins) (PW := SimPlaywright) this
      (sim_start sim_multi) in
  exists evs,
    trace (snd visited) = [] ++ evs /\
    flat_map step evs =
      [Clicked 0; Saved; Released; Reported "windows x64";
       Clicked 3; Saved; Released; Reported "macos intel"; Stopped].
Proof.
  intros this visited.
  exact (run_steps_in_order (JS := AsciiBuiltins) (PW := SimPlaywright) this
           (sim_start sim_multi) (snd visited) (Fulfilled tt) eq_refl).
Defined.

(** X7. The object that [MultiPlatform.init] hands over belongs to the
    extension and the options it was given, and the last thing [init]
    did was to create its progress bar, with the number of its tasks as
    the total. *)
Theorem init_bar_total
    {JS : Builtins} {World : Type} {PW : Playwright World}
    (ext : Extension) (options : CmdArgs) (st st1 : State World)
    (this : MultiPlatform.t) :
  MultiPlatform.init ext options st = (Fulfilled (Some this), st1) ->
  MultiPlatform._ext this = ext /\
  MultiPlatform._options this = options /\
  exists evs,
    trace st1 =
      trace st ++ evs ++ [EBarCreate (length (MultiPlatform.platformTaskList this))] /\
    Forall probeEvent evs.
Proof.
  intros H.
  destruct (init_inv _ _ _ _ _ H) as (sta & stb & tasks & bar & H1 & H2 & H3 & ->).
  split; [reflexivity|]. split; [reflexivity|].
  destruct (hasSpecifiedPlatforms_emits _ _ _ _ _ H1) as (e1 & E1 & F1).
  destruct (computePlatformTaskList_emits _ _ _ _ H2) as (e2 & E2 & F2).
  unfold bar_create in H3.
  destruct (multibar_create (length tasks) (world stb)) as [b w].
  inversion H3; subst. simpl.
  exists (e1 ++ e2). rewrite E2, E1, <- !app_assoc.
  split; [reflexivity | now apply Forall_app].
Qed.

Lemma init_bar_total_witness :
  let options := sim_options ["windows x64"; "macos intel"] in
  let this :=
    MultiPlatform.mk (sim_ext "a.b") options
      [mkPlatformTask 0 "windows x64"; mkPlatformTask 3 "macos intel"] 0 in
  MultiPlatform._ext this = sim_ext "a.b" /\
  MultiPlatform._options this = options /\
  exists evs,
    trace (snd (MultiPlatform.init (JS := AsciiBuiltins) (PW := SimPlaywright)
                  (sim_ext "a.b") options (sim_start sim_multi))) =
      [] ++ evs ++ [EBarCreate 2] /\
    Forall probeEvent evs.
Proof.
  intros options this.
  exact (init_bar_total (JS := AsciiBuiltins) (PW := SimPlaywright)
           (sim_ext "a.b") options (sim_start sim_multi) _ this eq_refl).
Defined.

(* ================================================================== *)
(** * The visit of a package *)

(** X8. When the page of an extension cannot be opened, or its download
    button does not show up, [dlExt] is rejected with that very error
    and has done nothing else: no probe of the page, no warning, no
    download. *)
Theorem dlExt_navigation_failure
    {JS : Builtins} {World : Type} {PW : Playwright World}
    (ext : Extension) (options : CmdArgs) (st st' : State World) (e : JsError) :
  _navigateTo ext None st = (Rejected e, st') ->
  dlExt ext options st = (Rejected e, st') /\
  (trace st' = trace st ++ [EGoto (url ext) None] \/
   trace st' = trace st ++ [EGoto (url ext) None;
                            EWaitForSelector DL_BTN_SELECTOR None]).
Proof.
  intros H. split.
  - unfold dlExt. now rewrite (bind_rejected _ _ _ _ _ H).
  - unfold _navigateTo, bind, goto, waitForSelector, call in H.
    destruct (page_goto (url ext) None (world st)) as [[u|e1] w1].
    + simpl in H.
      destruct (page_waitForSelector DL_BTN_SELECTOR None w1) as [[u'|e2] w2];
        [discriminate|].
      inversion H; subst. right. simpl. now rewrite <- app_assoc.
    + inversion H; subst. left. reflexivity.
Qed.

Lemma dlExt_navigation_failure_witness :
  let gone := PlaywrightError "net::ERR_INTERNET_DISCONNECTED" in
  let st' := mkState tt [EGoto (url (sim_ext "a.b")) None] in
  dlExt (JS := AsciiBuiltins) (PW := OfflinePlaywright)
    (sim_ext "a.b") (sim_options ["windows x64"]) (mkState tt []) =
    (Rejected gone, st') /\
  (trace st' = [] ++ [EGoto (url (sim_ext "a.b")) None] \/
   trace st' = [] ++ [EGoto (url (sim_ext "a.b")) None;
                      EWaitForSelector DL_BTN_SELECTOR None]).
Proof.
  intros gone st'.
  exact (dlExt_navigation_failure (JS := AsciiBuiltins) (PW := OfflinePlaywright)
           (sim_ext "a.b") (sim_options ["windows x64"]) (mkState tt []) st' gone
           eq_refl).
Defined.

(** X9. Whatever becomes of it, [dlExt] opens the page of its extension
    first and opens no other page: no retry, no second visit; and it
    neither launches nor closes the browser, nor ends the process. *)
Theorem dlExt_one_visit
    {JS : Builtins} {World : Type} {PW : Playwright World}
    (ext : Extension) (options : CmdArgs) (st st' : State World) (r : result unit) :
  dlExt ext options st = (r, st') ->
  exists evs,
    trace st' = trace st ++ EGoto (url ext) None :: evs /\
    flat_map milestone (EGoto (url ext) None :: evs) = [Visited (url ext)] /\
    Forall (fun ev => forall debug, ev <> ELaunch debug) evs /\
    ~ In ENewPage evs.
Proof.
  intros H. destruct (dlExt_trace _ _ _ _ _ H) as (evs & E & F).
  exists evs. split; [exact E|]. split; [|split].
  - simpl. f_equal. apply flat_map_silent.
    eapply Forall_impl; [|exact F]. apply visitEvent_no_milestone.
  - eapply Forall_impl; [|exact F]. intros ev Hv debug ->. exact Hv.
  - intros K. rewrite Forall_forall in F. exact (F _ K).
Qed.

Lemma dlExt_one_visit_witness :
  exists evs,
    trace (snd (dlExt (JS := AsciiBuiltins) (PW := SimPlaywright)
                  (sim_ext "a.b") (sim_options ["windows x64"]) (sim_start sim_multi))) =
      [] ++ EGoto (url (sim_ext "a.b")) None :: evs /\
    flat_map milestone (EGoto (url (sim_ext "a.b")) None :: evs) =
      [Visited (url (sim_ext "a.b"))] /\
    Forall (fun ev => forall debug, ev <> ELaunch debug) evs /\
    ~ In ENewPage evs.
Proof.
  exact (dlExt_one_visit (JS := AsciiBuiltins) (PW := SimPlaywright)
           (sim_ext "a.b") (sim_options ["windows x64"]) (sim_start sim_multi)
           (snd (dlExt (JS := AsciiBuiltins) (PW := SimPlaywright)
                   (sim_ext "a.b") (sim_options ["windows x64"])
                   (sim_start sim_multi)))
           (Fulfilled tt) eq_refl).
Defined.

(** X10. Every file that [dlExt] saves goes to the output directory of
    the options, under the file name that the server suggests for that
    download: [path.join(options.output, suggestedFilename)]. *)
Theorem dlExt_saves_into_output
    {JS : Builtins} {World : Type} {PW : Playwright World}
    (ext : Extension) (options : CmdArgs) (st st' : State World) (r : result unit) :
  dlExt ext options st = (r, st') ->
  exists evs,
    trace st' = trace st ++ evs /\
    forall d path,
      In (ESaveAs d path) evs ->
      path = path_join (output options) (suggestedFilename d).
Proof.
  intros H. destruct (dlExt_trace _ _ _ _ _ H) as (evs & E & F).
  exists (EGoto (url ext) None :: evs). split; [exact E|].
  intros d path [K|K]; [discriminate|].
  rewrite Forall_forall in F. exact (F _ K).
Qed.

Lemma dlExt_saves_into_output_witness :
  exists evs,
    trace (snd (dlExt (JS := AsciiBuiltins) (PW := SimPlaywright)
                  (sim_ext "a.b") (sim_options ["windows x64"]) (sim_start sim_multi))) =
      [] ++ evs /\
    forall d path,
      In (ESaveAs d path) evs ->
      path = path_join (Builtins := AsciiBuiltins) "out" (suggestedFilename d).
Proof.
  exact (dlExt_saves_into_output (JS := AsciiBuiltins) (PW := SimPlaywright)
           (sim_ext "a.b") (sim_options ["windows x64"]) (sim_start sim_multi)
           (snd (dlExt (JS := AsciiBuiltins) (PW := SimPlaywright)
                   (sim_ext "a.b") (sim_options ["windows x64"])
                   (sim_start sim_multi)))
           (Fulfilled tt) eq_refl).
Defined.

(** X11. Whatever becomes of it, [SinglePlatform.run] saves at most one
    file and releases a download only after it has saved it; it clicks
    no entry of a dropdown and moves no progress bar. *)
Theorem single_run_at_most_one_save
    {JS : Builtins} {World : Type} {PW : Playwright World}
    (options : CmdArgs) (ext : Extension) (st st' : State World) (r : result unit) :
  SinglePlatform.run options ext st = (r, st') ->
  exists evs,
    trace st' = trace st ++ evs /\
    exists rest, [Saved; Released] = flat_map step evs ++ rest.
Proof.
  unfold SinglePlatform.run. intros H. inv_bind H.
  - destruct (hasSpecifiedPlatforms_emits _ _ _ _ _ Hm) as (e1 & E1 & F1).
    pose proof (flat_map_silent step e1
                  (Forall_impl _ probeEvent_no_step F1)) as S1.
    destruct a; simpl in Hk.
    + destruct (clickAndDl_steps "-" (timeout options) (inl DL_BTN_SELECTOR)
                  (output options) _ _ _ Hk) as (e2 & E2 & C).
      exists (e1 ++ e2). rewrite E2, E1, app_assoc. split; [reflexivity|].
      rewrite flat_map_app, S1. simpl app.
      destruct r; [exists []; rewrite app_nil_r; now rewrite C | exact C].
    + inversion Hk; subst. exists (e1 ++ [EConsoleWarn
         (String "010" ("Skipping " ++ id ext ++
            " as it does not have the desired platform[s]" ++ String "010" ""))%string]).
      simpl. rewrite E1, app_assoc. split; [reflexivity|].
      exists [Saved; Released]. rewrite flat_map_app, S1. reflexivity.
  - destruct (hasSpecifiedPlatforms_emits _ _ _ _ _ Hm) as (e1 & E1 & F1).
    exists e1. split; [exact E1|]. exists [Saved; Released].
    now rewrite (flat_map_silent step e1 (Forall_impl _ probeEvent_no_step F1)).
Qed.

Lemma single_run_at_most_one_save_witness :
  exists evs,
    trace (snd (SinglePlatform.run (JS := AsciiBuiltins) (PW := SimPlaywright)
                  (sim_options ["windows x64"]) (sim_ext "a.b")
                  (sim_start sim_unsaved))) = [] ++ evs /\
    exists rest, [Saved; Released] = flat_map step evs ++ rest.
Proof.
  exact (single_run_at_most_one_save (JS := AsciiBuiltins) (PW := SimPlaywright)
           (sim_options ["windows x64"]) (sim_ext "a.b") (sim_start sim_unsaved)
           (snd (SinglePlatform.run (JS := AsciiBuiltins) (PW := SimPlaywright)
                   (sim_options ["windows x64"]) (sim_ext "a.b")
                   (sim_start sim_unsaved)))
           (Rejected (TimeoutError "saveAs")) eq_refl).
Defined.

(* ================================================================== *)
(** * The whole run *)

Section RunFacts.
Context {JS : Builtins} {World : Type} {PW : Playwright World}.

Lemma dlExt_milestone (ext : Extension) (options : CmdArgs) :
  observes (World := World) milestone [Visited (url ext)] (dlExt ext options).
Proof.
  intros st r st' H. destruct (dlExt_trace _ _ _ _ _ H) as (evs & E & F).
  exists (EGoto (url ext) None :: evs). split; [exact E|].
  assert (S : flat_map milestone (EGoto (url ext) None :: evs) = [Visited (url ext)]).
  { simpl. f_equal. apply flat_map_silent.
    eapply Forall_impl; [|exact F]. apply visitEvent_no_milestone. }
  rewrite S. destruct r; [reflexivity | now exists []].
Qed.

Lemma extensionsLoop_milestones (bar : SingleBar) (extensions : list Extension)
    (options : CmdArgs) :
  observes (World := World) milestone
    (map (fun ext => Visited (url ext)) extensions)
    (extensionsLoop bar extensions options).
Proof.
  induction extensions as [|ext rest IH]; cbn [extensionsLoop map].
  - apply observes_of_emits, emits_ret.
  - change (Visited (url ext) :: map (fun ext0 => Visited (url ext0)) rest)
      with ([] ++ [Visited (url ext)] ++ [] ++
            map (fun ext0 => Visited (url ext0)) rest).
    apply observes_bind; [apply (observes_emit milestone) | intros _].
    apply observes_bind; [|intros _].
    { apply (observes_catch_rethrow milestone _ (dlExt ext options)
               (fun _ => String "010" ("Error on " ++ id ext)%string));
        [reflexivity | apply dlExt_milestone]. }
    apply observes_bind; [apply (observes_emit milestone) | intros _; exact IH].
Qed.

Lemma setupBrowserAndBegin_milestones (extensions : list Extension)
    (options : CmdArgs) :
  observes (World := World) milestone
    (map (fun ext => Visited (url ext)) extensions ++ [BrowserClosed; ProcessExited])
    (_setupBrowserAndBegin extensions options).
Proof.
  unfold _setupBrowserAndBegin, console_info.
  change (map (fun ext => Visited (url ext)) extensions ++ [BrowserClosed; ProcessExited])
    with ([] ++ [] ++ [] ++ map (fun ext => Visited (url ext)) extensions ++
          [] ++ [BrowserClosed] ++ [] ++ [] ++ [ProcessExited]).
  apply observes_bind; [exact (observes_call milestone (ELaunch _) _) | intros _].
  apply observes_bind; [exact (observes_call milestone ENewPage _) | intros _].
  apply observes_bind; [|intros bar].
  { apply observes_of_emits.
    apply (emits_impl probeEvent); [|apply bar_create_emits].
    intros ev Hp. exact (visitEvent_no_milestone "" ev (probeEvent_visit "" ev Hp)). }
  apply observes_bind; [apply extensionsLoop_milestones | intros _].
  apply observes_bind; [apply (observes_emit milestone) | intros _].
  apply observes_bind; [exact (observes_call milestone EBrowserClose _) | intros _].
  apply observes_bind; [apply (observes_emit milestone) | intros _].
  apply observes_bind; [apply (observes_emit milestone) | intros _].
  apply (observes_emit milestone).
Qed.
End RunFacts.

(** X12. The loop of [_setupBrowserAndBegin] opens the pages of the
    extensions in the order of the list, each one once; a loop that is
    rejected has opened the pages of a first part of the list and of no
    other extension. *)
Theorem extensionsLoop_visits_in_order
    {JS : Builtins} {World : Type} {PW : Playwright World}
    (bar : SingleBar) (extensions : list Extension) (options : CmdArgs)
    (st st' : State World) (r : result unit) :
  extensionsLoop bar extensions options st = (r, st') ->
  let pages := map (fun ext => Visited (url ext)) extensions in
  exists evs,
    trace st' = trace st ++ evs /\
    match r with
    | Fulfilled _ => flat_map milestone evs = pages
    | Rejected _ => exists rest, pages = flat_map milestone evs ++ rest
    end.
Proof. intros H pages. exact (extensionsLoop_milestones bar extensions options _ _ _ H). Qed.

Lemma extensionsLoop_visits_in_order_witness :
  let exts := [sim_ext "a.b"; sim_ext "c.d"] in
  let visited :=
    extensionsLoop (JS := AsciiBuiltins) (PW := SimPlaywright) 0 exts
      (sim_options ["windows x64"]) (sim_start sim_single) in
  exists evs,
    trace (snd visited) = [] ++ evs /\
    flat_map milestone evs = [Visited (url (sim_ext "a.b")); Visited (url (sim_ext "c.d"))].
Proof.
  intros exts visited.
  exact (extensionsLoop_visits_in_order (JS := AsciiBuiltins) (PW := SimPlaywright)
           0 exts (sim_options ["windows x64"]) (sim_start sim_single)
           (snd visited) (Fulfilled tt) eq_refl).
Defined.

(** X13. A run of [_setupBrowserAndBegin] that is fulfilled has opened
    the page of every extension, in the order of the list, then closed
    the browser, then ended the process, and has done each once.  A run
    that is rejected has done a first part of this and nothing else of
    it: the browser is not closed before the last extension is done. *)
Theorem setupBrowserAndBegin_closes_last
    {JS : Builtins} {World : Type} {PW : Playwright World}
    (extensions : list Extension) (options : CmdArgs)
    (st st' : State World) (r : result unit) :
  _setupBrowserAndBegin extensions options st = (r, st') ->
  let planned :=
    map (fun ext => Visited (url ext)) extensions ++ [BrowserClosed; ProcessExited] in
  exists evs,
    trace st' = trace st ++ evs /\
    match r with
    | Fulfilled _ => flat_map milestone evs = planned
    | Rejected _ => exists rest, planned = flat_map milestone evs ++ rest
    end.
Proof.
  intros H planned. exact (setupBrowserAndBegin_milestones extensions options _ _ _ H).
Qed.

Lemma setupBrowserAndBegin_closes_last_witness :
  let exts := [sim_ext "a.b"; sim_ext "c.d"] in
  let visited :=
    _setupBrowserAndBegin (JS := AsciiBuiltins) (PW := SimPlaywright) exts
      (sim_options ["windows x64"]) (sim_start sim_single) in
  exists evs,
    trace (snd visited) = [] ++ evs /\
    flat_map milestone evs =
      [Visited (url (sim_ext "a.b")); Visited (url (sim_ext "c.d"));
       BrowserClosed; ProcessExited].
Proof.
  intros exts visited.
  refine (setupBrowserAndBegin_closes_last (JS := AsciiBuiltins) (PW := SimPlaywright)
            exts (sim_options ["windows x64"]) (sim_start sim_single)
            (snd visited) (Fulfilled tt) _).
  vm_compute. reflexivity.
Defined.

(* ================================================================== *)
(** * The command line and the list of extensions *)

Lemma js_get_In (obj : list (string * string)) (key v : string) :
  js_get obj key = Some v -> In (key, v) obj.
Proof.
  induction obj as [|[k v'] obj IH]; simpl; [discriminate|].
  destruct (String.eqb k key) eqn:E.
  - apply String.eqb_eq in E. intros H. inversion H; subst. now left.
  - intros H. right. exact (IH H).
Qed.

Lemma NoDup_map_In_inj {A B : Type} (g : A -> B) (l : list A) (a b : A) :
  NoDup (map g l) -> In a l -> In b l -> g a = g b -> a = b.
Proof.
  induction l as [|x l IH]; simpl; [intros _ []|].
  intros Hnd Ha Hb E. inversion Hnd as [|? ? Hx Hl]; subst.
  destruct Ha as [->|Ha], Hb as [->|Hb].
  - reflexivity.
  - exfalso. apply Hx. rewrite E. now apply in_map.
  - exfalso. apply Hx. rewrite <- E. now apply in_map.
  - exact (IH Hl Ha Hb E).
Qed.

Section ArgsFacts.
Context {JS : Builtins}.

Lemma map_platform_names_inv (xs names : list string) :
  map_platform_names xs = Fulfilled names ->
  Forall2 (fun code name =>
             exists display,
               js_get PLATFORMS code = Some display /\
               name = toLocaleLowerCase display)
          xs names.
Proof.
  revert names. induction xs as [|x xs IH]; intros names H;
    cbn [map_platform_names] in H.
  - inversion H; constructor.
  - destruct (js_get PLATFORMS x) as [display|] eqn:G; [|discriminate].
    destruct (map_platform_names xs) as [rest|e]; [|discriminate].
    inversion H; subst. constructor; [now exists display | now apply IH].
Qed.

End ArgsFacts.


(** X15. As long as lower-casing keeps the display names of the table
    apart, [_parseCmdArgs] keeps the requested platforms apart: a request
    without repetition gives platforms without repetition. *)
Theorem parseCmdArgs_keeps_platforms_apart
    {JS : Builtins} (argv argv' : CmdArgs) :
  NoDup (map (fun entry => toLocaleLowerCase (snd entry)) PLATFORMS) ->
  NoDup (platform argv) ->
  _parseCmdArgs argv = Fulfilled argv' ->
  NoDup (platform argv').
Proof.
  intros Htable Hreq H. unfold _parseCmdArgs in H.
  destruct (map_platform_names (platform argv)) as [names|e] eqn:M; [|discriminate].
  inversion H; subst. simpl. clear H.
  pose proof (map_platform_names_inv _ _ M) as F. clear M.
  induction F as [|code name codes names' (d & G & ->) F IH]; [constructor|].
  inversion Hreq as [|? ? Hcode Hcodes]; subst.
  constructor; [|exact (IH Hcodes)].
  intros K. apply Hcode. clear IH Hcodes Hcode Hreq.
  induction F as [|code' name' codes names' (d' & G' & ->) F IH]; [destruct K|].
  destruct K as [K|K]; [|right; exact (IH K)].
  left. apply js_get_In in G, G'.
  pose proof (NoDup_map_In_inj (fun entry => toLocaleLowerCase (snd entry))
                PLATFORMS (code', d') (code, d) Htable G' G K) as E.
  now inversion E.
Qed.

Lemma parseCmdArgs_keeps_platforms_apart_witness :
  NoDup ["linux x64"; "web"].
Proof.
  refine (parseCmdArgs_keeps_platforms_apart (JS := AsciiBuiltins)
            (sim_options ["linux-x64"; "web"]) (sim_options ["linux x64"; "web"])
            _ _ eq_refl).
  - repeat constructor; simpl; intuition discriminate.
  - repeat constructor; simpl; intuition discriminate.
Defined.

Lemma split_newline_nonempty (s : string) : split_newline s <> [].
Proof.
  induction s as [|c s IH]; simpl; [discriminate|].
  destruct (Ascii.eqb c "010"); [discriminate|].
  destruct (split_newline s); [contradiction | discriminate].
Qed.

(** [split_newline] undoes [join("\n")]: the pieces, put together again
    with line feeds, are the string. *)
Lemma split_newline_join (s : string) :
  String.concat (String "010" "") (split_newline s) = s.
Proof.
  induction s as [|c s IH]; [reflexivity|].
  cbn [split_newline].
  pose proof (split_newline_nonempty s) as N.
  destruct (split_newline s) as [|line rest]; [contradiction|].
  destruct (Ascii.eqb c "010") eqn:E.
  - apply Ascii.eqb_eq in E. subst c. rewrite <- IH. reflexivity.
  - rewrite <- IH. destruct rest; reflexivity.
Qed.




(** The list on a file with a carriage return, an empty line and a line
    of blanks. *)
Example loadExtList_example :
  _loadExtList (ST := AsciiTrim)
    (FS := sim_fs ("ms-python.python" ++ String "013" (String "010" "") ++
                   String "010" "" ++ "  " ++ String "010" "" ++
                   " rust-lang.rust-analyzer " ++ String "010" "")%string)
    "extensions.txt" =
  Fulfilled [sim_ext "ms-python.python"; sim_ext "rust-lang.rust-analyzer"].
Proof. vm_compute. reflexivity. Qed.

(** X17. On one and the same text of the capability list, a request with
    at least one platform that is satisfied under the policy ALL is
    satisfied under the policy ANY.  An empty request is another matter:
    on a text without "universal" it is satisfied under ALL and not
    under ANY. *)
Theorem hasSpecifiedPlatforms_all_any
    {JS : Builtins} {World : Type} {PW : Playwright World}
    (platforms : list string) (st : State World) (text : option string) (w : World) :
  locator_textContent (Loc PLATFORM_CAP_SELECTOR) (world st) = (Fulfilled text, w) ->
  let probed := mkState w (trace st ++ [ETextContent (Loc PLATFORM_CAP_SELECTOR)]) in
  exists all any,
    _hasSpecifiedPlatforms platforms true st = (Fulfilled all, probed) /\
    _hasSpecifiedPlatforms platforms false st = (Fulfilled any, probed) /\
    (platforms <> [] -> all = true -> any = true) /\
    (platforms = [] ->
     forall t, text = Some t -> ~ IsSubstring "universal" (toLocaleLowerCase t) ->
               all = true /\ any = false).
Proof.
  intros H probed.
  destruct (hasSpecifiedPlatforms_satisfies platforms true st text w H) as (all & Ea & Ha).
  destruct (hasSpecifiedPlatforms_satisfies platforms false st text w H) as (any & En & Hn).
  exists all, any. split; [exact Ea|]. split; [exact En|]. split.
  - intros Hne Hall. apply Hn. apply Ha in Hall.
    destruct text as [t|]; [|contradiction]. simpl in *.
    destruct Hall as [U|F]; [now left | right].
    destruct platforms as [|p ps]; [contradiction|].
    inversion F; subst. now apply Exists_cons_hd.
  - intros -> t -> U. split.
    + apply Ha. simpl. right. constructor.
    + destruct any; [|reflexivity]. exfalso.
      destruct (proj1 Hn eq_refl) as [K|K]; [contradiction | inversion K].
Qed.

Lemma hasSpecifiedPlatforms_all_any_witness :
  let probed := mkState sim_single [ETextContent (Loc PLATFORM_CAP_SELECTOR)] in
  exists all any,
    _hasSpecifiedPlatforms (JS := AsciiBuiltins) (PW := SimPlaywright)
      [] true (sim_start sim_single) = (Fulfilled all, probed) /\
    _hasSpecifiedPlatforms (JS := AsciiBuiltins) (PW := SimPlaywright)
      [] false (sim_start sim_single) = (Fulfilled any, probed) /\
    (@nil string <> [] -> all = true -> any = true) /\
    (@nil string = [] ->
     forall t, Some "Works with Windows x64"%string = Some t ->
               ~ IsSubstring "universal" (string_lower t) ->
               all = true /\ any = false).
Proof.
  intros probed.
  exact (hasSpecifiedPlatforms_all_any (JS := AsciiBuiltins) (PW := SimPlaywright)
           [] (sim_start sim_single) (Some "Works with Windows x64"%string)
           sim_single eq_refl).
Defined.
